(** * The eta measure (eta/eta.py): a shallow embedding and its properties

    The four functions of [eta/eta.py] ([eta], [eta_p], [eta_dict],
    [eta_p_dict]) are embedded as executable Rocq functions.

    Modelling choices.
    - Numbers.  The Python code is written against the numeric tower
      ([int], [fractions.Fraction] and [float] inputs all run through
      it), and two models of it are used.  The four functions at top
      level compute on normalised exact rationals [Qc]: the arithmetic
      of [int] and [Fraction] inputs, and of [float] inputs as long as
      no operation rounds.  Module [Binary64] holds the same four
      functions on IEEE binary64 numbers (the primitive floats, which
      evaluate bit for bit as Python's [float]).  The statements whose
      truth depends on rounding (the direction in which a pair is
      stored, the reversal of a ranking) are made about [Binary64], and
      the doctests are replayed there.
    - Exceptions.  A computation returns [Ok v] or [Raise e]; the
      exceptions the four functions can raise on well-typed inputs are
      [IndexError] (list subscript), [KeyError] (dict subscript) and
      [ZeroDivisionError] (the operator [/]).
    - A dense matrix is a list of rows, subscripted the way Python
      subscripts a list (a negative index counts from the end).
    - A sparse matrix is a [dict] keyed by pairs: a [gmap (K * K) Qc].
    - [for v in range(a, b)] is a left-to-right iteration over
      [range a b] that threads the local variables the body assigns
      ([_eta] and [ideal]) and stops at the first exception. *)

From Stdlib Require Import QArith Qcanon Lqa.
From Stdlib Require Import Floats.
From stdpp Require Import base decidable option numbers list gmap strings.

Set Warnings "-inexact-float".

Open Scope Qc_scope.

(** ** Exceptions and results *)

Inductive exn : Set := IndexError | KeyError | ZeroDivisionError.

Inductive result (A : Type) : Type :=
| Ok (a : A)
| Raise (e : exn).
Arguments Ok {A} a.
Arguments Raise {A} e.

#[global] Instance exn_eq_dec : EqDecision exn.
Proof. solve_decision. Defined.

#[global] Instance result_eq_dec {A} `{EqDecision A} : EqDecision (result A).
Proof. solve_decision. Defined.

#[global] Instance result_ret : MRet result := λ A a, Ok a.

#[global] Instance result_bind : MBind result := λ A B f m,
  match m with
  | Ok a => f a
  | Raise e => Raise e
  end.

(** ** The Python operations the functions use *)

(** [l[k]] on a list: a negative index counts from the end, anything
    outside [-len(l) .. len(l)-1] raises [IndexError]. *)
Definition list_getitem {A} (l : list A) (k : Z) : result A :=
  let n := Z.of_nat (length l) in
  let k' := if decide (k < 0)%Z then (k + n)%Z else k in
  if decide (k' < 0)%Z then Raise IndexError
  else match l !! Z.to_nat k' with
       | Some a => Ok a
       | None => Raise IndexError
       end.

(** [k in d] and [d[k]] on a dict. *)
Definition dict_contains `{Countable K} {V} (d : gmap K V) (k : K) : bool :=
  bool_decide (is_Some (d !! k)).

Definition dict_getitem `{Countable K} {V} (d : gmap K V) (k : K) : result V :=
  match d !! k with
  | Some v => Ok v
  | None => Raise KeyError
  end.

(** [a / b]. *)
Definition truediv (a b : Qc) : result Qc :=
  if decide (b = 0) then Raise ZeroDivisionError else Ok (a / b).

(** [range(a, b)]. *)
Definition range (a b : nat) : list nat := seq a (b - a).

(** [for v in l: body], threading the assigned variables [s]. *)
Fixpoint for_ {A St} (l : list A) (body : A → St → result St) (s : St) : result St :=
  match l with
  | [] => Ok s
  | a :: l' => s' ← body a s; for_ l' body s'
  end.

(** The literal [0.5]. *)
Definition half : Qc := Q2Qc (1 # 2).

(** The expression [1 if p > 0.5 else -1] that every variant assigns to
    its [true_delta] variable. *)
Definition true_delta (p : Qc) : Qc := if decide (half < p) then 1 else -1.

(** The accumulators of a loop: the pair [(_eta, ideal)]. *)
Definition sums : Type := Qc * Qc.

(** ** [eta] (eta.py, lines 29-43) *)

Definition eta_sums (ranking : list Z) (pref : list (list Qc)) : result sums :=
  let N := length ranking in
  for_ (range 0 N) (λ i,
    for_ (range (i + 1) N) (λ j '(_eta, ideal),
      x ← list_getitem ranking (Z.of_nat i);
      y ← list_getitem ranking (Z.of_nat j);
      row ← list_getitem pref x;
      p_ij ← list_getitem row y;
      let delta_ij : Qc := if decide (i < j)%nat then 1 else -1 in
      let true_delta_ij : Qc := true_delta p_ij in
      let label := 2 * p_ij - 1 in
      Ok (_eta + label * delta_ij, ideal + label * true_delta_ij)))
  (0, 0).

Definition eta (ranking : list Z) (pref : list (list Qc)) : result Qc :=
  '(_eta, ideal) ← eta_sums ranking pref;
  truediv _eta ideal.

(** ** [eta_p] (eta.py, lines 72-87) *)

Definition eta_p_sums (ranking : list Z) (Ep Vp : list (list Qc)) : result sums :=
  let N := length ranking in
  for_ (range 0 N) (λ i,
    for_ (range (i + 1) N) (λ j '(_eta, ideal),
      x ← list_getitem ranking (Z.of_nat i);
      y ← list_getitem ranking (Z.of_nat j);
      erow ← list_getitem Ep x;
      ep ← list_getitem erow y;
      vrow ← list_getitem Vp x;
      vp ← list_getitem vrow y;
      let delta_ij : Qc := if decide (i < j)%nat then 1 else -1 in
      let true_delta_ij : Qc := true_delta ep in
      label ← truediv (2 * ep - 1) (1 + vp);
      Ok (_eta + label * delta_ij, ideal + label * true_delta_ij)))
  (0, 0).

Definition eta_p (ranking : list Z) (Ep Vp : list (list Qc)) : result Qc :=
  '(_eta, ideal) ← eta_p_sums ranking Ep Vp;
  truediv _eta ideal.

(** ** [eta_dict] and [eta_p_dict] (eta.py, lines 118-140 and 174-198) *)

Section sparse.
Context `{Countable K}.

Definition eta_dict_sums (ranking : list K) (pref : gmap (K * K) Qc) : result sums :=
  let N := length ranking in
  for_ (range 0 N) (λ i,
    for_ (range (i + 1) N) (λ j '(_eta, ideal),
      x ← list_getitem ranking (Z.of_nat i);
      y ← list_getitem ranking (Z.of_nat j);
      if dict_contains pref (x, y) then
        p_ij ← dict_getitem pref (x, y);
        let delta_ij : Qc := if decide (i < j)%nat then 1 else -1 in
        let true_delta_ij : Qc := true_delta p_ij in
        let label := 2 * p_ij - 1 in
        Ok (_eta + label * delta_ij, ideal + label * true_delta_ij)
      else if dict_contains pref (y, x) then
        p_ji ← dict_getitem pref (y, x);
        let delta_ji : Qc := if decide (j < i)%nat then 1 else -1 in
        let true_delta_ji : Qc := true_delta p_ji in
        let label := 2 * p_ji - 1 in
        Ok (_eta + label * delta_ji, ideal + label * true_delta_ji)
      else Ok (_eta, ideal)))
  (0, 0).

Definition eta_dict (ranking : list K) (pref : gmap (K * K) Qc) : result Qc :=
  '(_eta, ideal) ← eta_dict_sums ranking pref;
  truediv _eta ideal.

Definition eta_p_dict_sums (ranking : list K) (Ep Vp : gmap (K * K) Qc) : result sums :=
  let N := length ranking in
  for_ (range 0 N) (λ i,
    for_ (range (i + 1) N) (λ j '(_eta, ideal),
      x ← list_getitem ranking (Z.of_nat i);
      y ← list_getitem ranking (Z.of_nat j);
      if dict_contains Ep (x, y) then
        ep_ij ← dict_getitem Ep (x, y);
        vp_ij ← dict_getitem Vp (x, y);
        let delta_ij : Qc := if decide (i < j)%nat then 1 else -1 in
        let true_delta_ij : Qc := true_delta ep_ij in
        label ← truediv (2 * ep_ij - 1) (1 + vp_ij);
        Ok (_eta + label * delta_ij, ideal + label * true_delta_ij)
      else if dict_contains Ep (y, x) then
        ep_ji ← dict_getitem Ep (y, x);
        vp_ji ← dict_getitem Vp (y, x);
        let delta_ji : Qc := if decide (j < i)%nat then 1 else -1 in
        let true_delta_ji : Qc := true_delta ep_ji in
        label ← truediv (2 * ep_ji - 1) (1 + vp_ji);
        Ok (_eta + label * delta_ji, ideal + label * true_delta_ji)
      else Ok (_eta, ideal)))
  (0, 0).

Definition eta_p_dict (ranking : list K) (Ep Vp : gmap (K * K) Qc) : result Qc :=
  '(_eta, ideal) ← eta_p_dict_sums ranking Ep Vp;
  truediv _eta ideal.
End sparse.

(** ** Notions used in the statements and in the proofs *)

(** The pairs [(ranking[i], ranking[j])], [i < j], in the order in which
    the two nested loops visit them. *)
Fixpoint pairs {A} (l : list A) : list (A * A) :=
  match l with
  | [] => []
  | x :: l' => map (pair x) l' ++ pairs l'
  end.

(** The amounts [(label * delta, label * true_delta)] one compared pair
    adds to [(_eta, ideal)]. *)
Definition term_of (label delta p : Qc) : sums :=
  (label * delta, label * true_delta p).

(** One run of a loop body, seen as adding a term to the two sums. *)
Definition add_term (t : result sums) (s : sums) : result sums :=
  c ← t; Ok (s.1 + c.1, s.2 + c.2).

(** [m[x][y]] on a dense matrix. *)
Definition getitem2 (m : list (list Qc)) (x y : Z) : result Qc :=
  row ← list_getitem m x; list_getitem row y.

(** The loop bodies in normal form: what the pair [(x, y)], met with [x]
    before [y] in the ranking, adds to the two sums, or the exception it
    raises.  The lemmas [eta_sums_terms], [eta_p_sums_terms],
    [eta_dict_sums_terms] and [eta_p_dict_sums_terms] prove that the loops
    of the four functions add exactly these terms, pair after pair. *)
Definition eta_term (pref : list (list Qc)) (xy : Z * Z) : result sums :=
  p ← getitem2 pref xy.1 xy.2;
  Ok (term_of (2 * p - 1) 1 p).

Definition eta_p_term (Ep Vp : list (list Qc)) (xy : Z * Z) : result sums :=
  ep ← getitem2 Ep xy.1 xy.2;
  vp ← getitem2 Vp xy.1 xy.2;
  label ← truediv (2 * ep - 1) (1 + vp);
  Ok (term_of label 1 ep).

Definition eta_dict_term `{Countable K} (pref : gmap (K * K) Qc) (xy : K * K)
    : result sums :=
  match pref !! (xy.1, xy.2) with
  | Some p => Ok (term_of (2 * p - 1) 1 p)
  | None =>
      match pref !! (xy.2, xy.1) with
      | Some p => Ok (term_of (2 * p - 1) (-1) p)
      | None => Ok (0, 0)
      end
  end.

Definition eta_p_dict_term `{Countable K} (Ep Vp : gmap (K * K) Qc) (xy : K * K)
    : result sums :=
  match Ep !! (xy.1, xy.2) with
  | Some ep =>
      vp ← dict_getitem Vp (xy.1, xy.2);
      label ← truediv (2 * ep - 1) (1 + vp);
      Ok (term_of label 1 ep)
  | None =>
      match Ep !! (xy.2, xy.1) with
      | Some ep =>
          vp ← dict_getitem Vp (xy.2, xy.1);
          label ← truediv (2 * ep - 1) (1 + vp);
          Ok (term_of label (-1) ep)
      | None => Ok (0, 0)
      end
  end.

(** The terms of a list of pairs, up to the first exception. *)
Fixpoint collect {A} (t : A → result sums) (l : list A) : result (list sums) :=
  match l with
  | [] => Ok []
  | a :: l' => c ← t a; cs ← collect t l'; Ok (c :: cs)
  end.

(** The sum of a list of terms. *)
Fixpoint total (cs : list sums) : sums :=
  match cs with
  | [] => (0, 0)
  | c :: cs' => (c.1 + (total cs').1, c.2 + (total cs').2)
  end.

(** The two sums and the measure, as a function of the term of each pair. *)
Definition sums_over {A} (t : A → result sums) (ps : list A) : result sums :=
  cs ← collect t ps; Ok (total cs).

Definition measure_over {A} (t : A → result sums) (ps : list A) : result Qc :=
  '(_eta, ideal) ← sums_over t ps; truediv _eta ideal.

Definition sums_of {A} (t : A * A → result sums) (r : list A) : result sums :=
  sums_over t (pairs r).

Definition measure {A} (t : A * A → result sums) (r : list A) : result Qc :=
  measure_over t (pairs r).

(** A term never adds more to [_eta], in absolute value, than to [ideal]. *)
Definition bounded (c : sums) : Prop := - c.2 ≤ c.1 ≤ c.2.

(** The loops ended, with an ideal sum of 0. *)
Definition ideal_zero (s : result sums) : Prop := ∃ e, s = Ok (e, 0).

(** The variance matrix has the shape of the preference matrix. *)
Definition same_shape (Ep Vp : list (list Qc)) : Prop :=
  Forall2 (λ erow vrow, length erow = length vrow) Ep Vp.

(** Every variance is 0. *)
Definition all_zero (Vp : list (list Qc)) : Prop :=
  Forall (Forall (λ v, v = 0)) Vp.

(** A pair is covered when the dict has it in one of the two directions. *)
Definition covered `{Countable K} (pref : gmap (K * K) Qc) (xy : K * K) : bool :=
  dict_contains pref (xy.1, xy.2) || dict_contains pref (xy.2, xy.1).

(** The pairs of the ranking for which the dict holds evidence. *)
Definition covered_pairs `{Countable K} (pref : gmap (K * K) Qc) (r : list K)
    : list (K * K) :=
  filter (λ xy, covered pref xy) (pairs r).

(** A term that adds [k] times as much to [_eta] as to [ideal]. *)
Definition aligned (k : Qc) (c : sums) : Prop := c.1 = k * c.2 ∧ 0 < c.2.

(** The loops ended, with an ideal sum other than 0. *)
Definition ideal_nonzero (s : result sums) : Prop :=
  ∃ e ideal, s = Ok (e, ideal) ∧ ideal ≠ 0.

(** A value is returned, and it lies in [[-1, 1]]. *)
Definition in_range (v : result Qc) : Prop := ∃ a, v = Ok a ∧ -1 ≤ a ≤ 1.

(** Variances are not negative. *)
Definition valid_variance (Vp : list (list Qc)) : Prop :=
  Forall (Forall (λ v, 0 ≤ v)) Vp.

(** [ideal_nonzero], as a test that runs. *)
Definition ideal_nonzero_b (s : result sums) : bool :=
  match s with
  | Ok (_, ideal) => bool_decide (ideal ≠ 0)
  | Raise _ => false
  end.

(** [pref[x][y] == 1 - pref[y][x]], for the items of a ranking. *)
Definition antisymmetric_on (r : list Z) (pref : list (list Qc)) : Prop :=
  ∀ x y p, x ∈ r → y ∈ r → x ≠ y →
    getitem2 pref x y = Ok p → getitem2 pref y x = Ok (1 - p).

(** [Vp[x][y] == Vp[y][x]], for the items of a ranking. *)
Definition symmetric_on (r : list Z) (Vp : list (list Qc)) : Prop :=
  ∀ x y v, x ∈ r → y ∈ r → x ≠ y →
    getitem2 Vp x y = Ok v → getitem2 Vp y x = Ok v.

(** Every entry of the dict is the entry of the matrix at its key. *)
Definition agrees_on (r : list Z) (d : gmap (Z * Z) Qc) (m : list (list Qc)) : Prop :=
  ∀ x y p, x ∈ r → y ∈ r → d !! (x, y) = Some p → getitem2 m x y = Ok p.

(** The dict has every pair of items of the ranking, in a direction. *)
Definition covers (r : list Z) (d : gmap (Z * Z) Qc) : Prop :=
  ∀ x y, x ∈ r → y ∈ r → x ≠ y → is_Some (d !! (x, y)) ∨ is_Some (d !! (y, x)).

(** The variance dict has the keys of the preference dict. *)
Definition same_keys_on (r : list Z) (dEp dVp : gmap (Z * Z) Qc) : Prop :=
  ∀ x y, x ∈ r → y ∈ r → is_Some (dEp !! (x, y)) → is_Some (dVp !! (x, y)).


(** An [n] by [n] matrix. *)
Definition square (n : nat) (m : list (list Qc)) : Prop :=
  length m = n ∧ Forall (λ row, length row = n) m.

(** The subscript [k] is within the bounds of a list of length [n]. *)
Definition in_bounds (n : nat) (k : Z) : Prop := (- Z.of_nat n ≤ k < Z.of_nat n)%Z.

(** The probability the loop body of [eta_dict] reads for a pair: the
    entry under [(x, y)], else the one under [(y, x)], else none. *)
Definition stored `{Countable K} (pref : gmap (K * K) Qc) (xy : K * K) : option Qc :=
  match pref !! (xy.1, xy.2) with
  | Some p => Some p
  | None => pref !! (xy.2, xy.1)
  end.

(** The compared pairs the matrix prefers in the order of the ranking for
    sure ([pref[x][y] == 1]), and against it for sure ([pref[x][y] == 0]). *)
Definition concordant (ranking : list Z) (pref : list (list Qc)) : nat :=
  length (filter (λ xy, getitem2 pref xy.1 xy.2 = Ok 1) (pairs ranking)).

Definition discordant (ranking : list Z) (pref : list (list Qc)) : nat :=
  length (filter (λ xy, getitem2 pref xy.1 xy.2 = Ok 0) (pairs ranking)).

(** A count, as a number. *)
Definition Qc_of_nat (n : nat) : Qc := Qc_of_Z (Z.of_nat n).

(** ** The four functions on binary64 numbers *)

(** The same four functions, line for line, on IEEE binary64 numbers:
    every [*], [-], [+] and [/] rounds to nearest, ties to even, as
    Python's [float] does.  An [int] of the source (the initial [0] of
    the two sums, the [2] and the [1] of the label, [delta_ij]) is the
    float of the same value, which is what Python makes of it as soon
    as it meets a float. *)
Module Binary64.
Local Open Scope float_scope.

(** [a / b] on floats: a zero divisor, of either sign, raises. *)
Definition truediv (a b : float) : result float :=
  if b =? 0 then Raise ZeroDivisionError else Ok (a / b).

(** [1 if p > 0.5 else -1]. *)
Definition true_delta (p : float) : float := if 0.5 <? p then 1 else -1.

(** The local variables [_eta] and [ideal]. *)
Definition sums : Type := float * float.

(** [eta(ranking, pref)], lines 29-43. *)
Definition eta_sums (ranking : list Z) (pref : list (list float)) : result sums :=
  let N := length ranking in
  for_ (range 0 N) (λ i,
    for_ (range (i + 1) N) (λ j '(_eta, ideal),
      x ← list_getitem ranking (Z.of_nat i);
      y ← list_getitem ranking (Z.of_nat j);
      row ← list_getitem pref x;
      p_ij ← list_getitem row y;
      let delta_ij : float := if decide (i < j)%nat then 1 else -1 in
      let true_delta_ij : float := true_delta p_ij in
      let label := 2 * p_ij - 1 in
      Ok (_eta + label * delta_ij, ideal + label * true_delta_ij)))
  (0, 0).

Definition eta (ranking : list Z) (pref : list (list float)) : result float :=
  '(_eta, ideal) ← eta_sums ranking pref;
  truediv _eta ideal.

(** [eta_p(ranking, Ep, Vp)], lines 72-87. *)
Definition eta_p_sums (ranking : list Z) (Ep Vp : list (list float)) : result sums :=
  let N := length ranking in
  for_ (range 0 N) (λ i,
    for_ (range (i + 1) N) (λ j '(_eta, ideal),
      x ← list_getitem ranking (Z.of_nat i);
      y ← list_getitem ranking (Z.of_nat j);
      erow ← list_getitem Ep x;
      ep ← list_getitem erow y;
      vrow ← list_getitem Vp x;
      vp ← list_getitem vrow y;
      let delta_ij : float := if decide (i < j)%nat then 1 else -1 in
      let true_delta_ij : float := true_delta ep in
      label ← truediv (2 * ep - 1) (1 + vp);
      Ok (_eta + label * delta_ij, ideal + label * true_delta_ij)))
  (0, 0).

Definition eta_p (ranking : list Z) (Ep Vp : list (list float)) : result float :=
  '(_eta, ideal) ← eta_p_sums ranking Ep Vp;
  truediv _eta ideal.

Section sparse.
Context `{Countable K}.

(** [eta_dict(ranking, pref)], lines 118-140. *)
Definition eta_dict_sums (ranking : list K) (pref : gmap (K * K) float) : result sums :=
  let N := length ranking in
  for_ (range 0 N) (λ i,
    for_ (range (i + 1) N) (λ j '(_eta, ideal),
      x ← list_getitem ranking (Z.of_nat i);
      y ← list_getitem ranking (Z.of_nat j);
      if dict_contains pref (x, y) then
        p_ij ← dict_getitem pref (x, y);
        let delta_ij : float := if decide (i < j)%nat then 1 else -1 in
        let true_delta_ij : float := true_delta p_ij in
        let label := 2 * p_ij - 1 in
        Ok (_eta + label * delta_ij, ideal + label * true_delta_ij)
      else if dict_contains pref (y, x) then
        p_ji ← dict_getitem pref (y, x);
        let delta_ji : float := if decide (j < i)%nat then 1 else -1 in
        let true_delta_ji : float := true_delta p_ji in
        let label := 2 * p_ji - 1 in
        Ok (_eta + label * delta_ji, ideal + label * true_delta_ji)
      else Ok (_eta, ideal)))
  (0, 0).

Definition eta_dict (ranking : list K) (pref : gmap (K * K) float) : result float :=
  '(_eta, ideal) ← eta_dict_sums ranking pref;
  truediv _eta ideal.

(** [eta_p_dict(ranking, Ep, Vp)], lines 174-198. *)
Definition eta_p_dict_sums (ranking : list K) (Ep Vp : gmap (K * K) float) : result sums :=
  let N := length ranking in
  for_ (range 0 N) (λ i,
    for_ (range (i + 1) N) (λ j '(_eta, ideal),
      x ← list_getitem ranking (Z.of_nat i);
      y ← list_getitem ranking (Z.of_nat j);
      if dict_contains Ep (x, y) then
        ep_ij ← dict_getitem Ep (x, y);
        vp_ij ← dict_getitem Vp (x, y);
        let delta_ij : float := if decide (i < j)%nat then 1 else -1 in
        let true_delta_ij : float := true_delta ep_ij in
        label ← truediv (2 * ep_ij - 1) (1 + vp_ij);
        Ok (_eta + label * delta_ij, ideal + label * true_delta_ij)
      else if dict_contains Ep (y, x) then
        ep_ji ← dict_getitem Ep (y, x);
        vp_ji ← dict_getitem Vp (y, x);
        let delta_ji : float := if decide (j < i)%nat then 1 else -1 in
        let true_delta_ji : float := true_delta ep_ji in
        label ← truediv (2 * ep_ji - 1) (1 + vp_ji);
        Ok (_eta + label * delta_ji, ideal + label * true_delta_ji)
      else Ok (_eta, ideal)))
  (0, 0).

Definition eta_p_dict (ranking : list K) (Ep Vp : gmap (K * K) float) : result float :=
  '(_eta, ideal) ← eta_p_dict_sums ranking Ep Vp;
  truediv _eta ideal.

End sparse.
(** *** Notions used in the statements about binary64 numbers *)

(** [m[x][y]] on a dense matrix. *)
Definition getitem2 (m : list (list float)) (x y : Z) : result float :=
  row ← list_getitem m x; list_getitem row y.

(** The amounts [(label * delta, label * true_delta)] one compared pair
    adds to [(_eta, ideal)]. *)
Definition term_of (label delta p : float) : sums :=
  (label * delta, label * true_delta p).

(** One run of a loop body, seen as adding a term to the two sums. *)
Definition add_term (t : result sums) (s : sums) : result sums :=
  c ← t; Ok (s.1 + c.1, s.2 + c.2).

(** What [eta] adds for the pair [(x, y)], met with [x] before [y]. *)
Definition eta_term (pref : list (list float)) (xy : Z * Z) : result sums :=
  p ← getitem2 pref xy.1 xy.2;
  Ok (term_of (2 * p - 1) 1 p).

(** What one pair does to the two sums in [eta_dict] and [eta_p_dict]:
    a pair found in neither direction leaves them as they are. *)
Definition eta_dict_step `{Countable K} (pref : gmap (K * K) float) (xy : K * K)
    (s : sums) : result sums :=
  match pref !! (xy.1, xy.2) with
  | Some p => add_term (Ok (term_of (2 * p - 1) 1 p)) s
  | None =>
      match pref !! (xy.2, xy.1) with
      | Some p => add_term (Ok (term_of (2 * p - 1) (-1) p)) s
      | None => Ok s
      end
  end.

Definition eta_p_dict_step `{Countable K} (Ep Vp : gmap (K * K) float) (xy : K * K)
    (s : sums) : result sums :=
  match Ep !! (xy.1, xy.2) with
  | Some ep =>
      add_term (vp ← dict_getitem Vp (xy.1, xy.2);
                label ← truediv (2 * ep - 1) (1 + vp);
                Ok (term_of label 1 ep)) s
  | None =>
      match Ep !! (xy.2, xy.1) with
      | Some ep =>
          add_term (vp ← dict_getitem Vp (xy.2, xy.1);
                    label ← truediv (2 * ep - 1) (1 + vp);
                    Ok (term_of label (-1) ep)) s
      | None => Ok s
      end
  end.

(** The terms of a list of pairs, up to the first exception. *)
Fixpoint collect {A} (t : A → result sums) (l : list A) : result (list sums) :=
  match l with
  | [] => Ok []
  | a :: l' => c ← t a; cs ← collect t l'; Ok (c :: cs)
  end.




(** [q] is an exact mirror of [p]: its label is the negation of the
    label of [p], bit for bit, and it lies on the other side of 0.5. *)
Definition mirrored (p q : float) : Prop :=
  2 * q - 1 = - (2 * p - 1) ∧ true_delta q = - true_delta p.

(** The entries [pref[x][y]] and [pref[y][x]] are exact mirrors, for the
    items of a ranking. *)
Definition antisymmetric_on (r : list Z) (pref : list (list float)) : Prop :=
  ∀ x y p, x ∈ r → y ∈ r → x ≠ y →
    getitem2 pref x y = Ok p → ∃ q, getitem2 pref y x = Ok q ∧ mirrored p q.



(** Neither sum is [-0.0]. *)
Definition no_negative_zero (s : sums) : Prop :=
  s.1 ≠ neg_zero ∧ s.2 ≠ neg_zero.

(** *** Concrete inputs *)

(** The inputs of the doctests. *)
Definition pref3 : list (list float) := [[1; 1; 1]; [0; 1; 1]; [0; 0; 1]].
Definition zero3 : list (list float) := [[0; 0; 0]; [0; 0; 0]; [0; 0; 0]].

Definition pref4 : list (list float) :=
  [[0.5; 0.2; 0.4; 0.3]; [0.8; 0.5; 0.1; 0.4];
   [0.6; 0.9; 0.5; 0.4]; [0.7; 0.6; 0.6; 0.5]].
Definition zero4 : list (list float) :=
  [[0; 0; 0; 0]; [0; 0; 0; 0]; [0; 0; 0; 0]; [0; 0; 0; 0]].

Definition dict3 : gmap (string * string) float :=
  {[ ("a", "b")%string := 1; ("a", "c")%string := 1; ("b", "c")%string := 1 ]}.

(** The pairs of the four-item doctests other than [a], [b]. *)
Definition dict_rest : gmap (string * string) float :=
  {[ ("a", "c")%string := 0.4; ("a", "d")%string := 0.3; ("b", "c")%string := 0.1;
     ("b", "d")%string := 0.4; ("c", "d")%string := 0.4 ]}.

Definition dict4 : gmap (string * string) float := <[("a", "b")%string := 0.2]> dict_rest.
Definition dict4_ba : gmap (string * string) float := <[("b", "a")%string := 0.8]> dict_rest.
Definition dict4_mixed : gmap (string * string) float :=
  {[ ("b", "a")%string := 0.8; ("c", "a")%string := 0.6; ("d", "a")%string := 0.7;
     ("c", "b")%string := 0.9; ("b", "d")%string := 0.4; ("c", "d")%string := 0.4 ]}.

(** The variance dict of a doctest: 0 under every key of the
    preference dict. *)
Definition zero_variance (Ep : gmap (string * string) float)
    : gmap (string * string) float :=
  (λ _, 0) <$> Ep.


End Binary64.

(** ** Concrete inputs: those of the doctests of eta.py, and small ones *)

(** The rational [n / d]. *)
Definition q (n : Z) (d : positive) : Qc := Q2Qc (n # d).

Definition pref3 : list (list Qc) := [[1; 1; 1]; [0; 1; 1]; [0; 0; 1]].
Definition zero3 : list (list Qc) := [[0; 0; 0]; [0; 0; 0]; [0; 0; 0]].

Definition pref4 : list (list Qc) :=
  [ [q 5 10; q 2 10; q 4 10; q 3 10];
    [q 8 10; q 5 10; q 1 10; q 4 10];
    [q 6 10; q 9 10; q 5 10; q 4 10];
    [q 7 10; q 6 10; q 6 10; q 5 10] ].

Definition dict3 : gmap (string * string) Qc :=
  list_to_map [(("a", "b"), 1); (("a", "c"), 1); (("b", "c"), 1)]%string.

Definition dict4 : gmap (string * string) Qc :=
  list_to_map [(("b", "a"), q 8 10); (("c", "a"), q 6 10); (("d", "a"), q 7 10);
               (("c", "b"), q 9 10); (("b", "d"), q 4 10); (("c", "d"), q 4 10)]%string.

(** All probabilities 0.5: the ideal sum of a two-item ranking is 0. *)
Definition tie2 : list (list Qc) := [[half; half]; [half; half]].

Definition tie_dict : gmap (string * string) Qc :=
  {[ ("a", "b")%string := half ]}.

Definition skip_dict : gmap (string * string) Qc :=
  {[ ("a", "b")%string := q 8 10 ]}.

Definition Ep_ab : gmap (string * string) Qc := {[ ("a", "b")%string := q 8 10 ]}.
Definition Vp_ba : gmap (string * string) Qc := {[ ("b", "a")%string := 0 ]}.

Definition var4 : list (list Qc) :=
  [ [0; q 1 2; 1; 2]; [q 1 2; 0; q 3 1; 0]; [1; q 3 1; 0; q 1 4]; [2; 0; q 1 4; 0] ].

Definition dict_rest : gmap (string * string) Qc :=
  list_to_map [(("a", "c"), q 4 10); (("a", "d"), q 3 10); (("b", "c"), q 1 10);
               (("b", "d"), q 4 10); (("c", "d"), q 4 10)]%string.

Definition zdict4 : gmap (Z * Z) Qc :=
  list_to_map [((1, 0), q 8 10); ((2, 0), q 6 10); ((3, 0), q 7 10);
               ((2, 1), q 9 10); ((1, 3), q 4 10); ((2, 3), q 4 10)]%Z.

Definition zvar4 : gmap (Z * Z) Qc :=
  list_to_map [((1, 0), q 1 2); ((2, 0), q 1 1); ((3, 0), q 2 1);
               ((2, 1), q 3 1); ((1, 3), q 0 1); ((2, 3), q 1 4)]%Z.

(** A matrix with a tie: the last two items are equally preferred. *)
Definition pref3_tie : list (list Qc) := [[1; 0; 0]; [1; 1; half]; [1; half; 1]].

(** A variance of -1 for the pair of items 1 and 3, 0 elsewhere. *)
Definition var_minus_one : list (list Qc) :=
  [ [0; 0; 0; 0]; [0; 0; 0; -1]; [0; 0; 0; 0]; [0; -1; 0; 0] ].

(** The matrix [pref4] with another diagonal and other entries in the
    places that the ranking [2; 1; 3; 0] does not compare. *)
Definition pref4_upper : list (list Qc) :=
  [ [1; 1; 1; 1];
    [q 8 10; 1; 0; q 4 10];
    [q 6 10; q 9 10; 1; q 4 10];
    [q 7 10; 0; 0; 1] ].

(** ** The documented examples (the doctests of eta.py) *)

(** A closed equation between results is settled by running both sides
    and comparing the rationals they hold. *)
Ltac run := apply (bool_decide_unpack _); vm_compute; exact I.

Example eta_doctest_1 : eta [0; 1; 2]%Z pref3 = Ok 1.
Proof. run. Qed.

Example eta_doctest_2 : eta [2; 1; 0]%Z pref3 = Ok (-1).
Proof. run. Qed.

Example eta_doctest_3 : eta [2; 1; 3; 0]%Z pref4 = Ok (q 2 3).
Proof. run. Qed.

Example eta_p_doctest_1 : eta_p [0; 1; 2]%Z pref3 zero3 = Ok 1.
Proof. run. Qed.

Example eta_p_doctest_2 : eta_p [2; 1; 0]%Z pref3 zero3 = Ok (-1).
Proof. run. Qed.

Example eta_dict_doctest_1 : eta_dict ["a"; "b"; "c"]%string dict3 = Ok 1.
Proof. run. Qed.

Example eta_dict_doctest_2 : eta_dict ["c"; "b"; "a"]%string dict3 = Ok (-1).
Proof. run. Qed.

Example eta_dict_doctest_5 : eta_dict ["c"; "b"; "d"; "a"]%string dict4 = Ok (q 2 3).
Proof. run. Qed.

Example eta_p_dict_doctest_5 :
  eta_p_dict ["c"; "b"; "d"; "a"]%string dict4 ((λ _, 0) <$> dict4) = Ok (q 2 3).
Proof. run. Qed.

Example eta_out_of_range : eta [0; 3]%Z pref3 = Raise IndexError.
Proof. run. Qed.

Example eta_negative_index : eta [0; -1]%Z pref3 = Ok 1.
Proof. run. Qed.

(** ** Subscripts and loops *)

Lemma list_getitem_nat {A} (l : list A) (i : nat) :
  list_getitem l (Z.of_nat i) =
  match l !! i with Some a => Ok a | None => Raise IndexError end.
Proof.
  unfold list_getitem.
  destruct (decide (Z.of_nat i < 0)%Z) as [Hneg|_]; [lia|].
  destruct (decide (Z.of_nat i < 0)%Z) as [Hneg|_]; [lia|].
  by rewrite Nat2Z.id.
Qed.

Lemma list_getitem_lookup {A} (l : list A) (i : nat) (a : A) :
  l !! i = Some a → list_getitem l (Z.of_nat i) = Ok a.
Proof. intros Hi. by rewrite list_getitem_nat, Hi. Qed.

Lemma bind_Ok {A B} (f : A → result B) (a : A) : Ok a ≫= f = f a.
Proof. reflexivity. Qed.

Lemma for_app {A St} (l1 l2 : list A) (f : A → St → result St) (s : St) :
  for_ (l1 ++ l2) f s = s' ← for_ l1 f s; for_ l2 f s'.
Proof.
  revert s. induction l1 as [|a l1 IH]; intros s; simpl; [done|].
  destruct (f a s) as [s'|e]; simpl; [apply IH|done].
Qed.

Lemma for_map {A B St} (g : A → B) (l : list A) (f : B → St → result St) (s : St) :
  for_ (map g l) f s = for_ l (λ a, f (g a)) s.
Proof.
  revert s. induction l as [|a l IH]; intros s; simpl; [done|].
  destruct (f (g a) s) as [s'|e]; simpl; [apply IH|done].
Qed.

Lemma for_seq_lookup {A St} (l : list A) (a : nat)
    (f : nat → St → result St) (g : A → St → result St) :
  (∀ k y s, l !! k = Some y → f (a + k)%nat s = g y s) →
  ∀ s, for_ (seq a (length l)) f s = for_ l g s.
Proof.
  revert a. induction l as [|y l IH]; intros a Hfg s; simpl; [done|].
  specialize (Hfg 0%nat y s eq_refl) as Hhd. rewrite Nat.add_0_r in Hhd.
  rewrite Hhd. destruct (g y s) as [s'|e]; simpl; [|done].
  apply IH. intros k z s'' Hk.
  rewrite <- (Hfg (S k) z s'' Hk). f_equal. lia.
Qed.

(** The shared skeleton: the two nested [for] loops over positions visit
    the elements of [pairs ranking], in order. *)
Lemma pair_loop_pairs {A St} (r : list A)
    (inner : nat → nat → St → result St) (step : A * A → St → result St) :
  (∀ i j x y s, (i < j)%nat → r !! i = Some x → r !! j = Some y →
                inner i j s = step (x, y) s) →
  ∀ s, for_ (range 0 (length r)) (λ i, for_ (range (i + 1) (length r)) (inner i)) s
       = for_ (pairs r) step s.
Proof.
  intros Hstep.
  assert (∀ suf pre s, r = pre ++ suf →
    for_ (seq (length pre) (length suf))
         (λ i, for_ (range (i + 1) (length r)) (inner i)) s
    = for_ (pairs suf) step s) as Hgen.
  { induction suf as [|x rest IH]; intros pre s Hr; simpl; [done|].
    rewrite for_app, for_map.
    assert (range (length pre + 1) (length r) = seq (length pre + 1) (length rest)) as ->.
    { unfold range. f_equal. rewrite Hr, length_app. simpl. lia. }
    rewrite (for_seq_lookup rest _ _ (λ y, step (x, y))).
    - destruct (for_ rest _ s) as [s'|e]; simpl; [|done].
      specialize (IH (pre ++ [x]) s').
      rewrite length_app, Nat.add_1_r in IH. apply IH.
      by rewrite <- app_assoc.
    - intros k y s' Hk. apply Hstep; [lia| |].
      + rewrite Hr. by apply list_lookup_middle.
      + rewrite Hr, lookup_app_r by lia.
        replace (length pre + 1 + k - length pre)%nat with (S k) by lia. done. }
  intros s. unfold range at 1. rewrite Nat.sub_0_r. by apply (Hgen r []).
Qed.

(** ** What one pair adds to the two sums *)

Lemma dict_contains_lookup `{Countable K} {V} (d : gmap K V) (k : K) :
  dict_contains d k = match d !! k with Some _ => true | None => false end.
Proof.
  unfold dict_contains. destruct (d !! k) as [v|] eqn:Hk.
  - apply bool_decide_eq_true_2. by exists v.
  - apply bool_decide_eq_false_2. by intros [v Hv].
Qed.

Lemma for_add_term {A} (t : A → result sums) (l : list A) (s : sums) :
  for_ l (λ a, add_term (t a)) s =
  cs ← collect t l; Ok (s.1 + (total cs).1, s.2 + (total cs).2).
Proof.
  revert s. induction l as [|a l IH]; intros [e ideal]; simpl.
  - by rewrite !Qcplus_0_r.
  - unfold add_term at 1. destruct (t a) as [[c1 c2]|err]; simpl; [|done].
    rewrite IH. destruct (collect t l) as [cs|err]; simpl; [|done].
    by rewrite !Qcplus_assoc.
Qed.

Lemma for_add_term_0 {A} (t : A → result sums) (l : list A) :
  for_ l (λ a, add_term (t a)) (0, 0) = cs ← collect t l; Ok (total cs).
Proof.
  rewrite for_add_term. destruct (collect t l) as [cs|err]; simpl; [|done].
  rewrite !Qcplus_0_l. by destruct (total cs).
Qed.

(** Each function is the measure of its term. *)
Lemma eta_sums_terms ranking pref :
  eta_sums ranking pref = sums_of (eta_term pref) ranking.
Proof.
  unfold eta_sums, sums_of, sums_over. rewrite <- for_add_term_0.
  apply pair_loop_pairs. intros i j x y [e ideal] Hij Hx Hy.
  rewrite (list_getitem_lookup _ _ _ Hx), (list_getitem_lookup _ _ _ Hy).
  unfold add_term, eta_term, getitem2, term_of. simpl.
  destruct (list_getitem pref x) as [row|err]; simpl; [|done].
  destruct (list_getitem row y) as [p|err]; simpl; [|done].
  by rewrite decide_True by done.
Qed.

Lemma eta_p_sums_terms ranking Ep Vp :
  eta_p_sums ranking Ep Vp = sums_of (eta_p_term Ep Vp) ranking.
Proof.
  unfold eta_p_sums, sums_of, sums_over. rewrite <- for_add_term_0.
  apply pair_loop_pairs. intros i j x y [e ideal] Hij Hx Hy.
  rewrite (list_getitem_lookup _ _ _ Hx), (list_getitem_lookup _ _ _ Hy).
  unfold add_term, eta_p_term, getitem2, term_of. simpl.
  destruct (list_getitem Ep x) as [erow|err]; simpl; [|done].
  destruct (list_getitem erow y) as [ep|err]; simpl; [|done].
  destruct (list_getitem Vp x) as [vrow|err]; simpl; [|done].
  destruct (list_getitem vrow y) as [vp|err]; simpl; [|done].
  destruct (truediv _ _) as [label|err]; simpl; [|done].
  by rewrite decide_True by done.
Qed.

Lemma eta_dict_sums_terms `{Countable K} (ranking : list K) pref :
  eta_dict_sums ranking pref = sums_of (eta_dict_term pref) ranking.
Proof.
  unfold eta_dict_sums, sums_of, sums_over. rewrite <- for_add_term_0.
  apply pair_loop_pairs. intros i j x y [e ideal] Hij Hx Hy.
  rewrite (list_getitem_lookup _ _ _ Hx), (list_getitem_lookup _ _ _ Hy).
  unfold add_term, eta_dict_term, dict_getitem, term_of. simpl.
  rewrite !dict_contains_lookup.
  destruct (pref !! (x, y)) as [p|]; simpl.
  { by rewrite decide_True by done. }
  destruct (pref !! (y, x)) as [p|]; simpl.
  { by rewrite decide_False by lia. }
  by rewrite !Qcplus_0_r.
Qed.

Lemma eta_p_dict_sums_terms `{Countable K} (ranking : list K) Ep Vp :
  eta_p_dict_sums ranking Ep Vp = sums_of (eta_p_dict_term Ep Vp) ranking.
Proof.
  unfold eta_p_dict_sums, sums_of, sums_over. rewrite <- for_add_term_0.
  apply pair_loop_pairs. intros i j x y [e ideal] Hij Hx Hy.
  rewrite (list_getitem_lookup _ _ _ Hx), (list_getitem_lookup _ _ _ Hy).
  unfold add_term, eta_p_dict_term, term_of, dict_getitem. simpl.
  rewrite !dict_contains_lookup.
  destruct (Ep !! (x, y)) as [ep|]; simpl.
  { destruct (Vp !! (x, y)) as [vp|]; simpl; [|done].
    destruct (truediv _ _) as [label|err]; simpl; [|done].
    by rewrite decide_True by done. }
  destruct (Ep !! (y, x)) as [ep|]; simpl.
  { destruct (Vp !! (y, x)) as [vp|]; simpl; [|done].
    destruct (truediv _ _) as [label|err]; simpl; [|done].
    by rewrite decide_False by lia. }
  by rewrite !Qcplus_0_r.
Qed.

Lemma eta_measure ranking pref : eta ranking pref = measure (eta_term pref) ranking.
Proof. unfold eta, measure, measure_over. by rewrite eta_sums_terms. Qed.

Lemma eta_p_measure ranking Ep Vp :
  eta_p ranking Ep Vp = measure (eta_p_term Ep Vp) ranking.
Proof. unfold eta_p, measure, measure_over. by rewrite eta_p_sums_terms. Qed.

Lemma eta_dict_measure `{Countable K} (ranking : list K) pref :
  eta_dict ranking pref = measure (eta_dict_term pref) ranking.
Proof. unfold eta_dict, measure, measure_over. by rewrite eta_dict_sums_terms. Qed.

Lemma eta_p_dict_measure `{Countable K} (ranking : list K) Ep Vp :
  eta_p_dict ranking Ep Vp = measure (eta_p_dict_term Ep Vp) ranking.
Proof. unfold eta_p_dict, measure, measure_over. by rewrite eta_p_dict_sums_terms. Qed.

(** ** Arithmetic of the terms *)

(** Order goals on [Qc] are sent to [Q], where [lra] decides them. *)
Ltac qc_lra :=
  unfold half in *;
  unfold Qcle, Qclt, Qcminus, Qcplus, Qcmult, Qcopp, Q2Qc in *; simpl this in *;
  rewrite ?Qred_correct in *; lra.

Lemma label_pos (p : Qc) : half < p → 0 < 2 * p - 1.
Proof. intros Hp. qc_lra. Qed.

Lemma label_nonpos (p : Qc) : ¬ half < p → 2 * p - 1 ≤ 0.
Proof. intros Hp. apply Qcnot_lt_le in Hp. qc_lra. Qed.

Lemma Qc_nonneg_pos (a : Qc) : 0 ≤ a → a ≠ 0 → 0 < a.
Proof.
  intros Ha Hne. destruct (Qcle_lt_or_eq _ _ Ha) as [Hlt|Heq]; [done|].
  by destruct Hne.
Qed.

Lemma div_nonneg (a b : Qc) : 0 < b → 0 ≤ a → 0 ≤ a / b.
Proof.
  intros Hb Ha. unfold Qcdiv. apply Qcmult_nonneg_nonneg; [done|].
  apply Qclt_le_weak. by apply Qcinv_pos.
Qed.

Lemma div_nonpos (a b : Qc) : 0 < b → a ≤ 0 → a / b ≤ 0.
Proof.
  intros Hb Ha. assert (0 ≤ (- a) / b) as Hneg.
  { apply div_nonneg; [done|]. qc_lra. }
  assert (b ≠ 0) as Hne.
  { intros ->. by apply (irreflexivity Qclt 0). }
  replace (a / b) with (- (- a / b)) by (field; done).
  qc_lra.
Qed.

Lemma true_delta_gt (p : Qc) : half < p → true_delta p = 1.
Proof. intros Hp. unfold true_delta. by rewrite decide_True. Qed.

Lemma true_delta_le (p : Qc) : ¬ half < p → true_delta p = -1.
Proof. intros Hp. unfold true_delta. by rewrite decide_False. Qed.

Lemma term_of_bounded (label delta p : Qc) :
  delta = 1 ∨ delta = -1 →
  (half < p → 0 ≤ label) → (¬ half < p → label ≤ 0) →
  bounded (term_of label delta p).
Proof.
  intros Hdelta Hpos Hneg. unfold bounded, term_of. simpl.
  destruct (decide (half < p)) as [Hp|Hp].
  - rewrite (true_delta_gt p Hp). specialize (Hpos Hp). clear Hneg Hp.
    destruct Hdelta as [-> | ->]; split; qc_lra.
  - rewrite (true_delta_le p Hp). specialize (Hneg Hp). clear Hpos Hp.
    destruct Hdelta as [-> | ->]; split; qc_lra.
Qed.

Lemma zero_bounded : bounded (0, 0).
Proof. unfold bounded. simpl. split; qc_lra. Qed.

Lemma total_bounded (cs : list sums) : Forall bounded cs → bounded (total cs).
Proof.
  induction 1 as [|[c1 c2] cs Hc _ IH]; simpl; [apply zero_bounded|].
  unfold bounded in *. simpl in *.
  destruct (total cs) as [t1 t2]. simpl in *.
  destruct Hc as [Hc1 Hc2], IH as [Ht1 Ht2]. split; qc_lra.
Qed.

Lemma ratio_bounded (e ideal : Qc) :
  bounded (e, ideal) → ideal ≠ 0 → -1 ≤ e / ideal ≤ 1.
Proof.
  unfold bounded. simpl. intros [Hlo Hhi] Hne.
  assert (0 < ideal) as Hpos.
  { apply Qc_nonneg_pos; [|done]. qc_lra. }
  split.
  - apply (Qcmult_le_mono_pos_r _ _ ideal Hpos).
    replace (e / ideal * ideal) with e by (field; done).
    replace (-1 * ideal) with (- ideal) by ring. done.
  - apply (Qcmult_le_mono_pos_r _ _ ideal Hpos).
    replace (e / ideal * ideal) with e by (field; done).
    replace (1 * ideal) with ideal by ring. done.
Qed.

(** ** Terms of a list of pairs *)

Lemma collect_ext {A} (t t' : A → result sums) (l : list A) :
  (∀ a, a ∈ l → t a = t' a) → collect t l = collect t' l.
Proof.
  induction l as [|a l IH]; intros Hext; simpl; [done|].
  rewrite (Hext a) by left. rewrite IH; [done|].
  intros b Hb. apply Hext. by right.
Qed.

Lemma collect_Forall {A} (P : sums → Prop) (t : A → result sums) (l : list A) cs :
  collect t l = Ok cs → (∀ a c, a ∈ l → t a = Ok c → P c) → Forall P cs.
Proof.
  revert cs. induction l as [|a l IH]; intros cs; simpl.
  - intros [= <-] _. constructor.
  - destruct (t a) as [c|err] eqn:Hta; simpl; [|done].
    destruct (collect t l) as [cs'|err]; simpl; [|done].
    intros [= <-] HP. constructor.
    + apply (HP a); [left|done].
    + apply IH; [done|]. intros b d Hb. apply HP. by right.
Qed.

Lemma collect_length {A} (t : A → result sums) (l : list A) cs :
  collect t l = Ok cs → length cs = length l.
Proof.
  revert cs. induction l as [|a l IH]; intros cs; simpl.
  - by intros [= <-].
  - destruct (t a) as [c|err]; simpl; [|done].
    destruct (collect t l) as [cs'|err]; simpl; [|done].
    intros [= <-]. simpl. f_equal. by apply IH.
Qed.

Lemma collect_total {A} (t : A → result sums) (l : list A) :
  (∀ a, a ∈ l → ∃ c, t a = Ok c) → ∃ cs, collect t l = Ok cs.
Proof.
  induction l as [|a l IH]; intros Hok; simpl; [by eexists|].
  destruct (Hok a) as [c ->]; [left|]. simpl.
  destruct IH as [cs ->]; [|by eexists].
  intros b Hb. apply Hok. by right.
Qed.

(** With no other exception in sight, the first failing subscript decides. *)
Lemma collect_raise {A} (t : A → result sums) (l : list A) (e : exn) (a : A) :
  a ∈ l → t a = Raise e →
  (∀ b, b ∈ l → (∃ c, t b = Ok c) ∨ t b = Raise e) →
  collect t l = Raise e.
Proof.
  induction l as [|b l IH]; intros Ha Hta Hall; [by apply elem_of_nil in Ha|].
  simpl. destruct (Hall b) as [[c Hb] | Hb]; [left| |by rewrite Hb].
  rewrite Hb. simpl.
  apply elem_of_cons in Ha as [-> | Ha]; [congruence|].
  rewrite IH; [done..|]. intros d Hd. apply Hall. by right.
Qed.

Lemma pairs_elem {A} (r : list A) (i j : nat) (x y : A) :
  (i < j)%nat → r !! i = Some x → r !! j = Some y → (x, y) ∈ pairs r.
Proof.
  revert i j. induction r as [|z r IH]; intros i j Hij Hx Hy; [done|].
  simpl. apply elem_of_app. destruct i as [|i].
  - left. injection Hx as ->. destruct j as [|j]; [lia|]. simpl in Hy.
    apply list_elem_of_fmap. exists y. split; [done|].
    by apply list_elem_of_lookup_2 in Hy.
  - right. destruct j as [|j]; [lia|]. apply (IH i j); [lia|done..].
Qed.

Lemma elem_pairs {A} (r : list A) (x y : A) :
  (x, y) ∈ pairs r → ∃ i j, (i < j)%nat ∧ r !! i = Some x ∧ r !! j = Some y.
Proof.
  induction r as [|z r IH]; simpl; [by intros ?%elem_of_nil|].
  intros [Hin|Hin]%elem_of_app.
  - apply list_elem_of_fmap in Hin as (y' & [= -> ->] & Hy).
    apply list_elem_of_lookup_1 in Hy as [j Hj].
    exists 0%nat, (S j). repeat split; [lia|done..].
  - destruct (IH Hin) as (i & j & Hij & Hx & Hy).
    exists (S i), (S j). repeat split; [lia|done..].
Qed.

Lemma pairs_nonempty {A} (r : list A) : (2 ≤ length r)%nat → pairs r ≠ [].
Proof. destruct r as [|x [|y r]]; simpl; [lia..|done]. Qed.

Lemma pairs_short {A} (r : list A) : (length r < 2)%nat → pairs r = [].
Proof. destruct r as [|x [|y r]]; simpl; [done..|lia]. Qed.

(** ** The final division *)

Lemma truediv_zero (a : Qc) : truediv a 0 = Raise ZeroDivisionError.
Proof. unfold truediv. by rewrite decide_True. Qed.

Lemma truediv_nonzero (a b : Qc) : b ≠ 0 → truediv a b = Ok (a / b).
Proof. intros Hb. unfold truediv. by rewrite decide_False. Qed.

Lemma measure_ideal_zero {A} (t : A → result sums) (ps : list A) :
  ideal_zero (sums_over t ps) → measure_over t ps = Raise ZeroDivisionError.
Proof. intros [e He]. unfold measure_over. rewrite He. apply truediv_zero. Qed.

Lemma sums_short {A} (t : A * A → result sums) (r : list A) :
  (length r < 2)%nat → sums_of t r = Ok (0, 0).
Proof. intros Hr. unfold sums_of, sums_over. by rewrite pairs_short. Qed.

Lemma sums_of_two {A} (t : A * A → result sums) (x y : A) (c : sums) :
  t (x, y) = Ok c → sums_of t [x; y] = Ok c.
Proof.
  intros Ht. unfold sums_of, sums_over. simpl. rewrite Ht. simpl.
  rewrite !Qcplus_0_r. by destruct c.
Qed.

(** C9 -- a preference probability of exactly 0.5 gets [true_delta = -1]:
    the test [p > 0.5] is strict, so [true_delta] is [1] exactly when
    [0.5 < p] and [-1] exactly when [p <= 0.5]; and in every variant the
    pair of a two-item ranking adds [label * true_delta p] to [ideal],
    which at [p = 0.5] is [label * -1]. *)
Theorem true_delta_tie `{Countable K}
    (pref Ep Vp : list (list Qc)) (x y : Z)
    (d dEp dVp : gmap (K * K) Qc) (a b : K) (p v : Qc) :
  true_delta half = -1
  ∧ (true_delta p = 1 ↔ half < p) ∧ (true_delta p = -1 ↔ p ≤ half)
  ∧ (getitem2 pref x y = Ok p →
     eta_sums [x; y] pref = Ok ((2 * p - 1) * 1, (2 * p - 1) * true_delta p))
  ∧ (getitem2 Ep x y = Ok p → getitem2 Vp x y = Ok v → 1 + v ≠ 0 →
     eta_p_sums [x; y] Ep Vp
     = Ok ((2 * p - 1) / (1 + v) * 1, (2 * p - 1) / (1 + v) * true_delta p))
  ∧ (d !! (a, b) = Some p →
     eta_dict_sums [a; b] d = Ok ((2 * p - 1) * 1, (2 * p - 1) * true_delta p))
  ∧ (d !! (a, b) = None → d !! (b, a) = Some p →
     eta_dict_sums [a; b] d = Ok ((2 * p - 1) * -1, (2 * p - 1) * true_delta p))
  ∧ (dEp !! (a, b) = Some p → dVp !! (a, b) = Some v → 1 + v ≠ 0 →
     eta_p_dict_sums [a; b] dEp dVp
     = Ok ((2 * p - 1) / (1 + v) * 1, (2 * p - 1) / (1 + v) * true_delta p))
  ∧ (dEp !! (a, b) = None → dEp !! (b, a) = Some p → dVp !! (b, a) = Some v →
     1 + v ≠ 0 →
     eta_p_dict_sums [a; b] dEp dVp
     = Ok ((2 * p - 1) / (1 + v) * -1, (2 * p - 1) / (1 + v) * true_delta p)).
Proof.
  split; [apply true_delta_le, (irreflexivity Qclt)|].
  split; [|split].
  { destruct (decide (half < p)) as [Hp|Hp].
    - by rewrite (true_delta_gt p Hp).
    - rewrite (true_delta_le p Hp). split; [done|]. by intros ?. }
  { destruct (decide (half < p)) as [Hp|Hp].
    - rewrite (true_delta_gt p Hp). split; [done|].
      intros Hle. by apply Qcle_not_lt in Hle.
    - rewrite (true_delta_le p Hp). split; [|done].
      intros _. by apply Qcnot_lt_le. }
  repeat split.
  - intros Hp. rewrite eta_sums_terms. apply sums_of_two.
    unfold eta_term. simpl. by rewrite Hp.
  - intros Hp Hv Hne. rewrite eta_p_sums_terms. apply sums_of_two.
    unfold eta_p_term. simpl. by rewrite Hp, Hv, !bind_Ok, truediv_nonzero.
  - intros Hp. rewrite eta_dict_sums_terms. apply sums_of_two.
    unfold eta_dict_term. simpl. by rewrite Hp.
  - intros Hn Hp. rewrite eta_dict_sums_terms. apply sums_of_two.
    unfold eta_dict_term. simpl. by rewrite Hn, Hp.
  - intros Hp Hv Hne. rewrite eta_p_dict_sums_terms. apply sums_of_two.
    unfold eta_p_dict_term, dict_getitem. simpl.
    by rewrite Hp, Hv, !bind_Ok, truediv_nonzero.
  - intros Hn Hp Hv Hne. rewrite eta_p_dict_sums_terms. apply sums_of_two.
    unfold eta_p_dict_term, dict_getitem. simpl.
    by rewrite Hn, Hp, Hv, !bind_Ok, truediv_nonzero.
Qed.

Lemma true_delta_tie_witness :
  eta_sums [0; 1]%Z tie2 = Ok ((2 * half - 1) * 1, (2 * half - 1) * true_delta half)
  ∧ eta_dict_sums ["a"; "b"]%string tie_dict
    = Ok ((2 * half - 1) * 1, (2 * half - 1) * true_delta half)
  ∧ eta_dict_sums ["b"; "a"]%string tie_dict
    = Ok ((2 * half - 1) * -1, (2 * half - 1) * true_delta half)
  ∧ eta_p_sums [0; 1]%Z tie2 tie2
    = Ok ((2 * half - 1) / (1 + half) * 1, (2 * half - 1) / (1 + half) * true_delta half)
  ∧ eta_p_dict_sums ["a"; "b"]%string tie_dict tie_dict
    = Ok ((2 * half - 1) / (1 + half) * 1, (2 * half - 1) / (1 + half) * true_delta half)
  ∧ eta_p_dict_sums ["b"; "a"]%string tie_dict tie_dict
    = Ok ((2 * half - 1) / (1 + half) * -1, (2 * half - 1) / (1 + half) * true_delta half).
Proof.
  pose proof (true_delta_tie tie2 tie2 tie2 0%Z 1%Z tie_dict tie_dict tie_dict
                "a"%string "b"%string half half)
    as (_ & _ & _ & Hd & Hp & Hs1 & _ & Hps1 & _).
  pose proof (true_delta_tie tie2 tie2 tie2 0%Z 1%Z tie_dict tie_dict tie_dict
                "b"%string "a"%string half half)
    as (_ & _ & _ & _ & _ & _ & Hs2 & _ & Hps2).
  split; [by apply Hd|].
  split; [by apply Hs1|].
  split; [by apply Hs2|].
  split; [by apply Hp|].
  split; [by apply Hps1|].
  by apply Hps2.
Defined.

(** C8 -- the final division is not guarded: whenever the accumulated
    ideal sum is exactly 0 the call raises [ZeroDivisionError], and this is
    what happens, in all four functions, on every ranking of length
    [N < 2]. *)
Theorem zero_ideal_raises `{Countable K}
    (rz : list Z) (pref Ep Vp : list (list Qc))
    (rk : list K) (dpref dEp dVp : gmap (K * K) Qc) :
  (ideal_zero (eta_sums rz pref) ∨ (length rz < 2)%nat →
     eta rz pref = Raise ZeroDivisionError)
  ∧ (ideal_zero (eta_p_sums rz Ep Vp) ∨ (length rz < 2)%nat →
     eta_p rz Ep Vp = Raise ZeroDivisionError)
  ∧ (ideal_zero (eta_dict_sums rk dpref) ∨ (length rk < 2)%nat →
     eta_dict rk dpref = Raise ZeroDivisionError)
  ∧ (ideal_zero (eta_p_dict_sums rk dEp dVp) ∨ (length rk < 2)%nat →
     eta_p_dict rk dEp dVp = Raise ZeroDivisionError).
Proof.
  repeat split.
  - intros [[e He] | Hshort]; unfold eta.
    + rewrite He. apply truediv_zero.
    + rewrite eta_sums_terms, sums_short by done. apply truediv_zero.
  - intros [[e He] | Hshort]; unfold eta_p.
    + rewrite He. apply truediv_zero.
    + rewrite eta_p_sums_terms, sums_short by done. apply truediv_zero.
  - intros [[e He] | Hshort]; unfold eta_dict.
    + rewrite He. apply truediv_zero.
    + rewrite eta_dict_sums_terms, sums_short by done. apply truediv_zero.
  - intros [[e He] | Hshort]; unfold eta_p_dict.
    + rewrite He. apply truediv_zero.
    + rewrite eta_p_dict_sums_terms, sums_short by done. apply truediv_zero.
Qed.

Lemma zero_ideal_raises_witness :
  eta [0; 1]%Z tie2 = Raise ZeroDivisionError
  ∧ eta_p [0]%Z pref3 zero3 = Raise ZeroDivisionError
  ∧ eta_dict ["a"; "b"]%string tie_dict = Raise ZeroDivisionError
  ∧ eta_p_dict []%string dict3 ((λ _, 0) <$> dict3) = Raise ZeroDivisionError.
Proof.
  pose proof (zero_ideal_raises [0; 1]%Z tie2 tie2 tie2
                ["a"; "b"]%string tie_dict tie_dict tie_dict) as (H1 & _ & H3 & _).
  pose proof (zero_ideal_raises [0]%Z pref3 pref3 zero3
                []%string dict3 dict3 ((λ _, 0) <$> dict3)) as (_ & H2 & _ & H4).
  split; [|split; [|split]].
  - apply H1. left. exists 0. run.
  - apply H2. right. simpl. lia.
  - apply H3. left. exists 0. run.
  - apply H4. right. simpl. lia.
Defined.

(** ** Zero variances *)

Lemma list_getitem_Ok {A} (l : list A) (k : Z) (a : A) :
  list_getitem l k = Ok a → ∃ i, (i < length l)%nat ∧ l !! i = Some a ∧
    ∀ B (l' : list B), length l' = length l →
      list_getitem l' k = match l' !! i with Some b => Ok b | None => Raise IndexError end.
Proof.
  unfold list_getitem.
  set (k' := if decide (k < 0)%Z then (k + Z.of_nat (length l))%Z else k).
  destruct (decide (k' < 0)%Z) as [|Hk']; [done|].
  destruct (l !! Z.to_nat k') as [a'|] eqn:Hlk; [|done].
  intros [= ->]. exists (Z.to_nat k'). split; [by eapply lookup_lt_Some|].
  split; [done|]. intros B l' Hlen. rewrite Hlen. fold k'.
  by rewrite decide_False by done.
Qed.

Lemma getitem2_zero (Ep Vp : list (list Qc)) (x y : Z) (ep : Qc) :
  same_shape Ep Vp → all_zero Vp →
  getitem2 Ep x y = Ok ep → getitem2 Vp x y = Ok 0.
Proof.
  intros Hshape Hzero. unfold getitem2.
  destruct (list_getitem Ep x) as [erow|err] eqn:Hx; simpl; [|done].
  intros Hy.
  apply list_getitem_Ok in Hx as (i & Hi & Hrow & HVp).
  rewrite (HVp _ Vp) by (symmetry; by eapply Forall2_length).
  destruct (Forall2_lookup_l _ _ _ _ _ Hshape Hrow) as (vrow & Hvrow & Hlen).
  rewrite Hvrow. simpl.
  apply list_getitem_Ok in Hy as (j & Hj & Hep & Hvr).
  rewrite (Hvr _ vrow) by done.
  destruct (vrow !! j) as [v|] eqn:Hv.
  - f_equal. unfold all_zero in Hzero.
    rewrite Forall_lookup in Hzero. specialize (Hzero _ _ Hvrow).
    rewrite Forall_lookup in Hzero. by apply (Hzero j).
  - apply lookup_ge_None in Hv. lia.
Qed.

Lemma label_zero_variance (ep : Qc) :
  truediv (2 * ep - 1) (1 + 0) = Ok (2 * ep - 1).
Proof.
  rewrite Qcplus_0_r. rewrite truediv_nonzero by done.
  f_equal. apply (right_id 1 Qcdiv).
Qed.

Lemma measure_ext {A} (t t' : A * A → result sums) (r : list A) :
  (∀ xy, xy ∈ pairs r → t xy = t' xy) → measure t r = measure t' r.
Proof.
  intros Hext. unfold measure, measure_over, sums_over.
  by rewrite (collect_ext t t' (pairs r) Hext).
Qed.

(** C6 -- with every variance 0, the variance-weighted functions return
    exactly what the unweighted ones return: [eta_p] agrees with [eta]
    when [Vp] has the shape of [Ep] and all its entries are 0, and
    [eta_p_dict] agrees with [eta_dict] when [Vp] has an entry for every
    key of [Ep] and all its entries are 0. *)
Theorem zero_variance_is_unweighted `{Countable K}
    (rz : list Z) (Ep Vp : list (list Qc))
    (rk : list K) (dEp dVp : gmap (K * K) Qc) :
  (same_shape Ep Vp → all_zero Vp → eta_p rz Ep Vp = eta rz Ep)
  ∧ (dom dEp ⊆ dom dVp → map_Forall (λ _ v, v = 0) dVp →
     eta_p_dict rk dEp dVp = eta_dict rk dEp).
Proof.
  split.
  - intros Hshape Hzero. rewrite eta_p_measure, eta_measure.
    apply measure_ext. intros [x y] _. unfold eta_p_term, eta_term. simpl.
    destruct (getitem2 Ep x y) as [ep|err] eqn:Hep; simpl; [|done].
    rewrite (getitem2_zero Ep Vp x y ep) by done.
    by rewrite !bind_Ok, label_zero_variance.
  - intros Hdom Hzero. rewrite eta_p_dict_measure, eta_dict_measure.
    assert (∀ k ep, dEp !! k = Some ep → dict_getitem dVp k = Ok 0) as Hget.
    { intros k ep Hk. unfold dict_getitem.
      assert (k ∈ dom dVp) as [v Hv]%elem_of_dom.
      { apply Hdom, elem_of_dom. by exists ep. }
      rewrite Hv. f_equal. by apply (Hzero k). }
    apply measure_ext. intros [x y] _. unfold eta_p_dict_term, eta_dict_term. simpl.
    destruct (dEp !! (x, y)) as [ep|] eqn:Hxy.
    { by rewrite (Hget _ _ Hxy), bind_Ok, label_zero_variance. }
    destruct (dEp !! (y, x)) as [ep|] eqn:Hyx; [|done].
    by rewrite (Hget _ _ Hyx), bind_Ok, label_zero_variance.
Qed.

Lemma zero_variance_is_unweighted_witness :
  eta_p [2; 1; 3; 0]%Z pref4 [[0; 0; 0; 0]; [0; 0; 0; 0]; [0; 0; 0; 0]; [0; 0; 0; 0]]
    = eta [2; 1; 3; 0]%Z pref4
  ∧ eta_p_dict ["c"; "b"; "d"; "a"]%string dict4 ((λ _, 0) <$> dict4)
    = eta_dict ["c"; "b"; "d"; "a"]%string dict4.
Proof.
  pose proof (zero_variance_is_unweighted [2; 1; 3; 0]%Z pref4
    [[0; 0; 0; 0]; [0; 0; 0; 0]; [0; 0; 0; 0]; [0; 0; 0; 0]]
    ["c"; "b"; "d"; "a"]%string dict4 ((λ _, 0) <$> dict4)) as [Hdense Hsparse].
  split.
  - apply Hdense.
    + repeat constructor.
    + repeat constructor.
  - apply Hsparse.
    + by rewrite dom_fmap_L.
    + intros k v. rewrite lookup_fmap. by intros [? [_ <-]]%fmap_Some.
Defined.

(** ** Pairs the sparse matrix does not cover *)

Lemma sums_over_filter {A} (t : A → result sums) (P : A → bool) (l : list A) :
  (∀ a, a ∈ l → P a = false → t a = Ok (0, 0)) →
  sums_over t (filter (λ a, P a) l) = sums_over t l.
Proof.
  unfold sums_over. induction l as [|a l IH]; intros Hskip; [done|].
  assert (∀ b, b ∈ l → P b = false → t b = Ok (0, 0)) as Hl.
  { intros b Hb. apply Hskip. by right. }
  specialize (IH Hl). destruct (P a) eqn:HPa.
  - rewrite filter_cons_True by (by apply Is_true_true). simpl.
    destruct (t a) as [c|err]; simpl; [|done].
    destruct (collect t (filter _ l)) as [cs|err];
      destruct (collect t l) as [cs'|err']; simpl in *; congruence.
  - rewrite filter_cons_False by (by apply Is_true_false). simpl.
    rewrite (Hskip a) by (done || left). simpl.
    destruct (collect t (filter _ l)) as [cs|err];
      destruct (collect t l) as [cs'|err']; simpl in *; try congruence.
    injection IH as ->. rewrite !Qcplus_0_l. by destruct (total cs').
Qed.

Lemma uncovered_lookup `{Countable K} (pref : gmap (K * K) Qc) (xy : K * K) :
  covered pref xy = false →
  pref !! (xy.1, xy.2) = None ∧ pref !! (xy.2, xy.1) = None.
Proof.
  unfold covered. rewrite !dict_contains_lookup. intros Hc.
  apply orb_false_elim in Hc as [H1 H2].
  destruct (pref !! (xy.1, xy.2)); [done|].
  by destruct (pref !! (xy.2, xy.1)).
Qed.

Lemma eta_dict_term_uncovered `{Countable K} (pref : gmap (K * K) Qc) xy :
  covered pref xy = false → eta_dict_term pref xy = Ok (0, 0).
Proof.
  intros [H1 H2]%uncovered_lookup. unfold eta_dict_term. by rewrite H1, H2.
Qed.

Lemma eta_p_dict_term_uncovered `{Countable K} (Ep Vp : gmap (K * K) Qc) xy :
  covered Ep xy = false → eta_p_dict_term Ep Vp xy = Ok (0, 0).
Proof.
  intros [H1 H2]%uncovered_lookup. unfold eta_p_dict_term. by rewrite H1, H2.
Qed.

(** Dropping an item leaves the covered pairs alone when no pair with that
    item is covered. *)
Lemma covered_pairs_drop `{Countable K} (pref : gmap (K * K) Qc)
    (r1 r2 : list K) (z : K) :
  (∀ w, covered pref (z, w) = false ∧ covered pref (w, z) = false) →
  covered_pairs pref (r1 ++ z :: r2) = covered_pairs pref (r1 ++ r2).
Proof.
  intros Hz. unfold covered_pairs.
  assert (∀ l, filter (λ xy, covered pref xy) (map (pair z) l) = []) as Hznil.
  { induction l as [|w l IH]; [done|]. simpl.
    rewrite filter_cons_False; [done|]. apply Is_true_false, Hz. }
  induction r1 as [|a r1 IH]; simpl.
  - by rewrite filter_app, Hznil.
  - rewrite !filter_app, IH. f_equal.
    rewrite !map_app, !filter_app. f_equal. simpl.
    rewrite filter_cons_False; [done|]. apply Is_true_false, Hz.
Qed.

(** C7 -- in [eta_dict] and [eta_p_dict] a pair of positions whose items
    are in the dict in neither direction adds nothing to either sum: the
    value returned is the one computed from the covered pairs alone, and
    an item none of whose pairs is covered can be dropped from the ranking
    without changing the result. *)
Theorem uncovered_pairs_are_skipped `{Countable K}
    (r r1 r2 : list K) (z : K) (pref Ep Vp : gmap (K * K) Qc) :
  eta_dict r pref = measure_over (eta_dict_term pref) (covered_pairs pref r)
  ∧ eta_p_dict r Ep Vp = measure_over (eta_p_dict_term Ep Vp) (covered_pairs Ep r)
  ∧ ((∀ w, covered pref (z, w) = false ∧ covered pref (w, z) = false) →
     eta_dict (r1 ++ z :: r2) pref = eta_dict (r1 ++ r2) pref)
  ∧ ((∀ w, covered Ep (z, w) = false ∧ covered Ep (w, z) = false) →
     eta_p_dict (r1 ++ z :: r2) Ep Vp = eta_p_dict (r1 ++ r2) Ep Vp).
Proof.
  assert (∀ l, eta_dict l pref
               = measure_over (eta_dict_term pref) (covered_pairs pref l)) as Hd.
  { intros l. rewrite eta_dict_measure. unfold measure, measure_over, covered_pairs.
    rewrite sums_over_filter; [done|].
    intros xy _. apply eta_dict_term_uncovered. }
  assert (∀ l, eta_p_dict l Ep Vp
               = measure_over (eta_p_dict_term Ep Vp) (covered_pairs Ep l)) as Hp.
  { intros l. rewrite eta_p_dict_measure. unfold measure, measure_over, covered_pairs.
    rewrite sums_over_filter; [done|].
    intros xy _. apply eta_p_dict_term_uncovered. }
  split; [apply Hd|]. split; [apply Hp|]. split.
  - intros Hz. by rewrite !Hd, covered_pairs_drop.
  - intros Hz. by rewrite !Hp, covered_pairs_drop.
Qed.

Lemma skip_dict_uncovered (w : string) :
  covered skip_dict ("z"%string, w) = false ∧ covered skip_dict (w, "z"%string) = false.
Proof.
  unfold covered, skip_dict. rewrite !dict_contains_lookup. simpl.
  by rewrite !lookup_singleton_ne by congruence.
Qed.

Lemma uncovered_pairs_are_skipped_witness :
  eta_dict ["a"; "z"; "b"]%string skip_dict = eta_dict ["a"; "b"]%string skip_dict
  ∧ eta_p_dict ["a"; "z"; "b"]%string skip_dict skip_dict
    = eta_p_dict ["a"; "b"]%string skip_dict skip_dict.
Proof.
  pose proof (uncovered_pairs_are_skipped []%string ["a"]%string ["b"]%string
                "z"%string skip_dict skip_dict skip_dict) as (_ & _ & Hd & Hp).
  split; [apply Hd | apply Hp]; apply skip_dict_uncovered.
Defined.

(** ** The key under which the variance is read *)

Lemma one_plus_nonneg (v : Qc) : 0 ≤ v → 1 + v ≠ 0.
Proof.
  intros Hv Heq. assert (0 < 1 + v) as Hpos by qc_lra.
  rewrite Heq in Hpos. by apply (irreflexivity Qclt 0).
Qed.

Lemma one_plus_pos (v : Qc) : 0 ≤ v → 0 < 1 + v.
Proof. intros Hv. qc_lra. Qed.

Lemma eta_p_dict_term_cases `{Countable K} (Ep Vp : gmap (K * K) Qc) (xy : K * K) :
  map_Forall (λ _ v, 0 ≤ v) Vp →
  (∃ c, eta_p_dict_term Ep Vp xy = Ok c) ∨ eta_p_dict_term Ep Vp xy = Raise KeyError.
Proof.
  intros Hvar. unfold eta_p_dict_term, dict_getitem.
  destruct (Ep !! (xy.1, xy.2)) as [ep|].
  { destruct (Vp !! (xy.1, xy.2)) as [vp|] eqn:Hvp; [|by right].
    left. rewrite bind_Ok, truediv_nonzero; [by eexists|].
    apply one_plus_nonneg. by apply (Hvar _ _ Hvp). }
  destruct (Ep !! (xy.2, xy.1)) as [ep|]; [|left; by eexists].
  destruct (Vp !! (xy.2, xy.1)) as [vp|] eqn:Hvp; [|by right].
  left. rewrite bind_Ok, truediv_nonzero; [by eexists|].
  apply one_plus_nonneg. by apply (Hvar _ _ Hvp).
Qed.

(** C10 -- [eta_p_dict] reads the variance under the very key it found in
    [Ep]: when some pair of ranking positions [i < j] is in [Ep] as
    [(x, y)] (or, failing that, as [(y, x)]) and [Vp] has no entry under
    that same key, the call raises [KeyError], whether or not [Vp] holds
    the mirrored key. *)
Theorem variance_key_direction `{Countable K}
    (r : list K) (Ep Vp : gmap (K * K) Qc) (i j : nat) (x y : K) :
  (i < j)%nat → r !! i = Some x → r !! j = Some y →
  map_Forall (λ _ v, 0 ≤ v) Vp →
  (is_Some (Ep !! (x, y)) ∧ Vp !! (x, y) = None)
  ∨ (Ep !! (x, y) = None ∧ is_Some (Ep !! (y, x)) ∧ Vp !! (y, x) = None) →
  eta_p_dict r Ep Vp = Raise KeyError.
Proof.
  intros Hij Hx Hy Hvar Hkey.
  rewrite eta_p_dict_measure. unfold measure, measure_over, sums_over.
  rewrite (collect_raise _ _ KeyError (x, y)); [done| | |].
  - by apply (pairs_elem r i j).
  - unfold eta_p_dict_term, dict_getitem. simpl.
    destruct Hkey as [[[ep ->] ->] | (-> & [ep ->] & ->)]; done.
  - intros xy _. by apply eta_p_dict_term_cases.
Qed.

Lemma variance_key_direction_witness :
  is_Some (Vp_ba !! ("b", "a")%string)
  ∧ eta_p_dict ["a"; "b"]%string Ep_ab Vp_ba = Raise KeyError.
Proof.
  split; [by eexists|].
  apply (variance_key_direction ["a"; "b"]%string Ep_ab Vp_ba 0 1 "a"%string "b"%string).
  - lia.
  - reflexivity.
  - reflexivity.
  - intros k v. unfold Vp_ba. intros [_ <-]%lookup_singleton_Some. done.
  - left. split; [by eexists|]. reflexivity.
Defined.

(** ** Rankings that agree, or disagree, with every pair *)

Lemma total_aligned_weak (k : Qc) (cs : list sums) :
  Forall (aligned k) cs → (total cs).1 = k * (total cs).2 ∧ 0 ≤ (total cs).2.
Proof.
  induction 1 as [|[c1 c2] cs [Hc Hpos] _ [IH1 IH2]]; simpl in *.
  - split; [ring|done].
  - rewrite Hc, IH1. split; [ring|].
    apply Qcplus_nonneg_nonneg; [by apply Qclt_le_weak|done].
Qed.

Lemma total_aligned (k : Qc) (cs : list sums) :
  cs ≠ [] → Forall (aligned k) cs → aligned k (total cs).
Proof.
  intros Hne Hall. split; [by apply total_aligned_weak|].
  destruct Hall as [|[c1 c2] cs [_ Hpos] Hcs]; [done|]. simpl in *.
  apply Qcplus_pos_nonneg; [done|]. by apply (total_aligned_weak k).
Qed.

Lemma truediv_aligned (k e ideal : Qc) :
  aligned k (e, ideal) → truediv e ideal = Ok k.
Proof.
  intros [He Hpos]. simpl in *.
  assert (ideal ≠ 0) as Hne.
  { intros ->. by apply (irreflexivity Qclt 0). }
  rewrite truediv_nonzero by done. f_equal. rewrite He. by field.
Qed.

Lemma measure_aligned {A} (k : Qc) (t : A * A → result sums) (r : list A) :
  (2 ≤ length r)%nat →
  (∀ xy, xy ∈ pairs r → ∃ c, t xy = Ok c ∧ aligned k c) →
  measure t r = Ok k.
Proof.
  intros Hlen Hall. unfold measure, measure_over, sums_over.
  destruct (collect_total t (pairs r)) as [cs Hcs].
  { intros xy Hxy. destruct (Hall xy Hxy) as (c & Hc & _). by exists c. }
  rewrite Hcs. simpl.
  assert (aligned k (total cs)) as Hal.
  { apply total_aligned.
    - intros ->. apply collect_length in Hcs. simpl in Hcs.
      by apply (pairs_nonempty r Hlen), nil_length_inv.
    - apply (collect_Forall _ _ _ _ Hcs). intros xy c Hxy Hc.
      destruct (Hall xy Hxy) as (c' & Hc' & Hal). congruence. }
  destruct (total cs) as [e ideal]. by apply truediv_aligned.
Qed.

(** Terms that add [k] times as much to [_eta] as to [ideal], ties included. *)
Lemma total_proportional (k : Qc) (cs : list sums) :
  Forall (λ c, c.1 = k * c.2) cs → (total cs).1 = k * (total cs).2.
Proof.
  induction 1 as [|[c1 c2] cs Hc _ IH]; simpl in *; [ring|].
  rewrite Hc, IH. ring.
Qed.

Lemma measure_proportional {A} (k : Qc) (t : A * A → result sums) (r : list A) :
  (∀ xy c, xy ∈ pairs r → t xy = Ok c → c.1 = k * c.2) →
  (∃ e ideal, sums_of t r = Ok (e, ideal) ∧ ideal ≠ 0) →
  measure t r = Ok k.
Proof.
  intros Hall (e & ideal & Hs & Hne). unfold measure, measure_over.
  unfold sums_of in Hs. rewrite Hs. simpl.
  rewrite truediv_nonzero by done. f_equal.
  unfold sums_over in Hs.
  destruct (collect t (pairs r)) as [cs|err] eqn:Hcs; [|done].
  injection Hs as Hs.
  pose proof (total_proportional k cs (collect_Forall _ _ _ _ Hcs Hall)) as Hk.
  rewrite Hs in Hk. simpl in Hk. rewrite Hk. by field.
Qed.

Lemma term_of_against (p : Qc) :
  p ≤ half → (term_of (2 * p - 1) 1 p).1 = -1 * (term_of (2 * p - 1) 1 p).2.
Proof.
  intros Hp. unfold term_of. simpl.
  rewrite true_delta_le by (by apply Qcle_not_lt). ring.
Qed.

Lemma term_of_agree (p : Qc) : half < p → aligned 1 (term_of (2 * p - 1) 1 p).
Proof.
  intros Hp. unfold aligned, term_of. simpl. rewrite (true_delta_gt p Hp).
  split; [ring|]. rewrite Qcmult_1_r. by apply label_pos.
Qed.

(** C4 -- a ranking of at least two items that places every pair the way
    the preference matrix prefers it ([pref[ranking[i]][ranking[j]] > 0.5]
    for all positions [i < j]) has [eta] exactly 1. *)
Theorem perfect_ranking_scores_one (ranking : list Z) (pref : list (list Qc)) :
  (2 ≤ length ranking)%nat →
  (∀ i j x y, (i < j)%nat → ranking !! i = Some x → ranking !! j = Some y →
              ∃ p, getitem2 pref x y = Ok p ∧ half < p) →
  eta ranking pref = Ok 1.
Proof.
  intros Hlen Hpref. rewrite eta_measure. apply measure_aligned; [done|].
  intros [x y] (i & j & Hij & Hx & Hy)%elem_pairs.
  destruct (Hpref i j x y Hij Hx Hy) as (p & Hp & Hhalf).
  exists (term_of (2 * p - 1) 1 p). split; [|by apply term_of_agree].
  unfold eta_term. simpl. by rewrite Hp.
Qed.

(** Case analysis on the positions of a concrete ranking. *)
Ltac positions Hij Hx Hy :=
  repeat match type of Hx with
         | (_ :: _) !! ?i = Some _ => destruct i; simpl in Hx
         | [] !! ?i = Some _ => by destruct i
         end;
  repeat match type of Hy with
         | (_ :: _) !! ?j = Some _ => destruct j; simpl in Hy
         | [] !! ?j = Some _ => by destruct j
         end;
  try lia; try injection Hx as <-; try injection Hy as <-.

Lemma perfect_ranking_scores_one_witness : eta [0; 1; 2]%Z pref3 = Ok 1.
Proof.
  apply perfect_ranking_scores_one.
  - simpl. lia.
  - intros i j x y Hij Hx Hy.
    positions Hij Hx Hy; (eexists; split; [reflexivity|done]).
Defined.

(** ** The range of the measure *)

Lemma getitem2_Forall (P : Qc → Prop) (m : list (list Qc)) (x y : Z) (v : Qc) :
  Forall (Forall P) m → getitem2 m x y = Ok v → P v.
Proof.
  intros Hall. unfold getitem2.
  destruct (list_getitem m x) as [row|err] eqn:Hx; simpl; [|done].
  intros Hy.
  apply list_getitem_Ok in Hx as (i & _ & Hrow & _).
  apply list_getitem_Ok in Hy as (j & _ & Hv & _).
  rewrite Forall_lookup in Hall. specialize (Hall _ _ Hrow).
  rewrite Forall_lookup in Hall. by apply (Hall j).
Qed.

Lemma measure_over_in_range {A} (t : A → result sums) (ps : list A) :
  (∀ a c, a ∈ ps → t a = Ok c → bounded c) →
  ideal_nonzero (sums_over t ps) → in_range (measure_over t ps).
Proof.
  intros Hb (e & ideal & Hs & Hne). unfold measure_over. rewrite Hs. simpl.
  rewrite truediv_nonzero by done. eexists. split; [done|].
  apply ratio_bounded; [|done].
  unfold sums_over in Hs. destruct (collect t ps) as [cs|err] eqn:Hcs; [|done].
  injection Hs as Hs. rewrite <- Hs. apply total_bounded.
  by apply (collect_Forall _ _ _ _ Hcs).
Qed.

Lemma weighted_label_bounded (ep vp label delta : Qc) :
  0 ≤ vp → delta = 1 ∨ delta = -1 →
  truediv (2 * ep - 1) (1 + vp) = Ok label →
  bounded (term_of label delta ep).
Proof.
  intros Hvp Hdelta Hdiv.
  rewrite truediv_nonzero in Hdiv by (by apply one_plus_nonneg).
  injection Hdiv as <-. apply term_of_bounded; [done| |].
  - intros Hp. apply div_nonneg; [by apply one_plus_pos|].
    by apply Qclt_le_weak, label_pos.
  - intros Hp. apply div_nonpos; [by apply one_plus_pos|]. by apply label_nonpos.
Qed.

Lemma plain_label_bounded (p delta : Qc) :
  delta = 1 ∨ delta = -1 → bounded (term_of (2 * p - 1) delta p).
Proof.
  intros Hdelta. apply term_of_bounded; [done| |].
  - intros Hp. by apply Qclt_le_weak, label_pos.
  - apply label_nonpos.
Qed.

Lemma eta_term_bounded pref xy c : eta_term pref xy = Ok c → bounded c.
Proof.
  unfold eta_term. destruct (getitem2 pref xy.1 xy.2) as [p|err]; simpl; [|done].
  intros [= <-]. apply plain_label_bounded. by left.
Qed.

Lemma eta_p_term_bounded Ep Vp xy c :
  valid_variance Vp → eta_p_term Ep Vp xy = Ok c → bounded c.
Proof.
  intros Hvar. unfold eta_p_term.
  destruct (getitem2 Ep xy.1 xy.2) as [ep|err]; simpl; [|done].
  destruct (getitem2 Vp xy.1 xy.2) as [vp|err] eqn:Hvp; simpl; [|done].
  destruct (truediv _ _) as [label|err] eqn:Hdiv; simpl; [|done].
  intros [= <-]. apply (weighted_label_bounded ep vp); [|by left|done].
  by apply (getitem2_Forall _ Vp xy.1 xy.2).
Qed.

Lemma eta_dict_term_bounded `{Countable K} (pref : gmap (K * K) Qc) xy c :
  eta_dict_term pref xy = Ok c → bounded c.
Proof.
  unfold eta_dict_term.
  destruct (pref !! (xy.1, xy.2)) as [p|].
  { intros [= <-]. apply plain_label_bounded. by left. }
  destruct (pref !! (xy.2, xy.1)) as [p|].
  { intros [= <-]. apply plain_label_bounded. by right. }
  intros [= <-]. apply zero_bounded.
Qed.

Lemma eta_p_dict_term_bounded `{Countable K} (Ep Vp : gmap (K * K) Qc) xy c :
  map_Forall (λ _ v, 0 ≤ v) Vp → eta_p_dict_term Ep Vp xy = Ok c → bounded c.
Proof.
  intros Hvar. unfold eta_p_dict_term, dict_getitem.
  destruct (Ep !! (xy.1, xy.2)) as [ep|].
  { destruct (Vp !! (xy.1, xy.2)) as [vp|] eqn:Hvp; simpl; [|done].
    destruct (truediv _ _) as [label|err] eqn:Hdiv; simpl; [|done].
    intros [= <-]. apply (weighted_label_bounded ep vp); [|by left|done].
    by apply (Hvar _ _ Hvp). }
  destruct (Ep !! (xy.2, xy.1)) as [ep|].
  { destruct (Vp !! (xy.2, xy.1)) as [vp|] eqn:Hvp; simpl; [|done].
    destruct (truediv _ _) as [label|err] eqn:Hdiv; simpl; [|done].
    intros [= <-]. apply (weighted_label_bounded ep vp); [|by right|done].
    by apply (Hvar _ _ Hvp). }
  intros [= <-]. apply zero_bounded.
Qed.

(** C2 -- whenever the accumulated ideal sum is not 0, each of the four
    functions returns a value in the closed interval [-1, 1]; the
    variance-weighted ones do so for variances that are not negative. *)
Theorem measure_in_range `{Countable K}
    (rz : list Z) (pref Ep Vp : list (list Qc))
    (rk : list K) (dpref dEp dVp : gmap (K * K) Qc) :
  (ideal_nonzero (eta_sums rz pref) → in_range (eta rz pref))
  ∧ (valid_variance Vp → ideal_nonzero (eta_p_sums rz Ep Vp) →
     in_range (eta_p rz Ep Vp))
  ∧ (ideal_nonzero (eta_dict_sums rk dpref) → in_range (eta_dict rk dpref))
  ∧ (map_Forall (λ _ v, 0 ≤ v) dVp → ideal_nonzero (eta_p_dict_sums rk dEp dVp) →
     in_range (eta_p_dict rk dEp dVp)).
Proof.
  repeat split.
  - rewrite eta_sums_terms, eta_measure. apply measure_over_in_range.
    intros xy c _. apply eta_term_bounded.
  - intros Hvar. rewrite eta_p_sums_terms, eta_p_measure.
    apply measure_over_in_range. intros xy c _. by apply eta_p_term_bounded.
  - rewrite eta_dict_sums_terms, eta_dict_measure. apply measure_over_in_range.
    intros xy c _. apply eta_dict_term_bounded.
  - intros Hvar. rewrite eta_p_dict_sums_terms, eta_p_dict_measure.
    apply measure_over_in_range. intros xy c _. by apply eta_p_dict_term_bounded.
Qed.

Lemma ideal_nonzero_b_true (s : result sums) :
  ideal_nonzero_b s = true → ideal_nonzero s.
Proof.
  destruct s as [[e ideal]|err]; simpl; [|done].
  intros Hs%bool_decide_eq_true. by exists e, ideal.
Qed.

Lemma measure_in_range_witness :
  in_range (eta [2; 1; 3; 0]%Z pref4)
  ∧ in_range (eta_p [2; 1; 3; 0]%Z pref4 var4)
  ∧ in_range (eta_dict ["c"; "b"; "d"; "a"]%string dict4)
  ∧ in_range (eta_p_dict ["c"; "b"; "d"; "a"]%string dict4 dict4).
Proof.
  pose proof (measure_in_range [2; 1; 3; 0]%Z pref4 pref4 var4
                ["c"; "b"; "d"; "a"]%string dict4 dict4 dict4) as (H1 & H2 & H3 & H4).
  pose proof ideal_nonzero_b_true as Hnz.
  split; [|split; [|split]].
  - apply H1, Hnz. by vm_compute.
  - apply H2; [|apply Hnz; by vm_compute].
    repeat constructor; by vm_compute.
  - apply H3, Hnz. by vm_compute.
  - apply H4; [|apply Hnz; by vm_compute].
    apply (bool_decide_unpack (map_Forall (λ _ v, 0 ≤ v) dict4)). by vm_compute.
Defined.

(** ** Storing the mirrored probability, in exact arithmetic *)

Lemma true_delta_flip (p : Qc) : p ≠ half → true_delta (1 - p) = - true_delta p.
Proof.
  intros Hne. destruct (decide (half < p)) as [Hp|Hp].
  - rewrite (true_delta_gt p Hp). apply true_delta_le.
    apply Qcle_not_lt. qc_lra.
  - rewrite (true_delta_le p Hp). rewrite Qcopp_involutive. apply true_delta_gt.
    apply Qcnot_lt_le in Hp.
    destruct (Qcle_lt_or_eq _ _ Hp) as [Hlt|Heq]; [qc_lra|done].
Qed.

(** Storing the mirrored probability flips the sign of the label, of
    [delta] and of [true_delta]: the term is the same. *)
Lemma term_of_flip (label delta p : Qc) :
  (p = half → label = 0) →
  term_of (- label) (- delta) (1 - p) = term_of label delta p.
Proof.
  intros Htie. unfold term_of. f_equal; [ring|].
  destruct (decide (p = half)) as [Hp|Hp].
  - rewrite (Htie Hp). ring.
  - rewrite (true_delta_flip p Hp). ring.
Qed.

Lemma label_tie : 2 * half - 1 = 0.
Proof. by apply Qc_is_canon. Qed.

Lemma plain_term_flip (delta p : Qc) :
  term_of (2 * (1 - p) - 1) (- delta) (1 - p) = term_of (2 * p - 1) delta p.
Proof.
  rewrite <- (term_of_flip (2 * p - 1) delta p).
  - f_equal. ring.
  - intros ->. apply label_tie.
Qed.

Lemma weighted_term_flip (delta p v : Qc) :
  (label ← truediv (2 * (1 - p) - 1) (1 + v); Ok (term_of label (- delta) (1 - p)))
  = (label ← truediv (2 * p - 1) (1 + v); Ok (term_of label delta p)).
Proof.
  unfold truediv. destruct (decide (1 + v = 0)) as [|Hv]; [done|].
  rewrite !bind_Ok. f_equal.
  rewrite <- (term_of_flip ((2 * p - 1) / (1 + v)) delta p).
  - f_equal. by field.
  - intros ->. rewrite label_tie. by field.
Qed.

Lemma opp_opp_one : - -1 = 1.
Proof. apply Qcopp_involutive. Qed.

(** ** Dense and sparse preference data *)

Lemma pairs_NoDup {A} (r : list A) (x y : A) :
  NoDup r → (x, y) ∈ pairs r → x ∈ r ∧ y ∈ r ∧ x ≠ y.
Proof.
  intros Hnd (i & j & Hij & Hx & Hy)%elem_pairs.
  split; [by eapply list_elem_of_lookup_2|].
  split; [by eapply list_elem_of_lookup_2|].
  intros ->. pose proof (NoDup_lookup r i j y Hnd Hx Hy). lia.
Qed.

(** C1 -- for a ranking of distinct items, a dense matrix with
    [pref[x][y] == 1 - pref[y][x]] and a dict that holds, for every pair
    of items, the matrix entry in one direction or the other,
    [eta_dict] returns what [eta] returns; and [eta_p_dict] returns what
    [eta_p] returns when, moreover, the variance matrix is symmetric and
    the variance dict holds its entries under the keys of the preference
    dict. *)
Theorem dense_sparse_equivalence
    (r : list Z) (pref Ep Vp : list (list Qc)) (dpref dEp dVp : gmap (Z * Z) Qc) :
  NoDup r →
  (antisymmetric_on r pref → agrees_on r dpref pref → covers r dpref →
   eta_dict r dpref = eta r pref)
  ∧ (antisymmetric_on r Ep → agrees_on r dEp Ep → covers r dEp →
     symmetric_on r Vp → agrees_on r dVp Vp → same_keys_on r dEp dVp →
     eta_p_dict r dEp dVp = eta_p r Ep Vp).
Proof.
  intros Hnd. split.
  - intros Hanti Hagree Hcover. rewrite eta_dict_measure, eta_measure.
    apply measure_ext. intros [x y] (Hx & Hy & Hne)%(pairs_NoDup r x y Hnd).
    unfold eta_dict_term, eta_term. simpl.
    destruct (dpref !! (x, y)) as [p|] eqn:Hxy.
    { by rewrite (Hagree x y p Hx Hy Hxy). }
    destruct (Hcover x y Hx Hy Hne) as [[p Hp] | [p Hyx]]; [congruence|].
    rewrite Hyx. pose proof (Hagree y x p Hy Hx Hyx) as Hdense.
    rewrite (Hanti y x p Hy Hx (not_eq_sym Hne) Hdense), bind_Ok.
    f_equal. rewrite <- (plain_term_flip (-1) p). by rewrite opp_opp_one.
  - intros Hanti Hagree Hcover Hsym HagreeV Hkeys.
    rewrite eta_p_dict_measure, eta_p_measure.
    apply measure_ext. intros [x y] (Hx & Hy & Hne)%(pairs_NoDup r x y Hnd).
    unfold eta_p_dict_term, eta_p_term, dict_getitem. simpl.
    destruct (dEp !! (x, y)) as [p|] eqn:Hxy.
    { destruct (Hkeys x y Hx Hy) as [v Hv]; [by exists p|].
      by rewrite Hv, (Hagree x y p Hx Hy Hxy), (HagreeV x y v Hx Hy Hv). }
    destruct (Hcover x y Hx Hy Hne) as [[p Hp] | [p Hyx]]; [congruence|].
    rewrite Hyx. destruct (Hkeys y x Hy Hx) as [v Hv]; [by exists p|].
    rewrite Hv, bind_Ok.
    pose proof (Hagree y x p Hy Hx Hyx) as Hdense.
    pose proof (HagreeV y x v Hy Hx Hv) as HdenseV.
    rewrite (Hanti y x p Hy Hx (not_eq_sym Hne) Hdense), bind_Ok.
    rewrite (Hsym y x v Hy Hx (not_eq_sym Hne) HdenseV), bind_Ok.
    rewrite <- (weighted_term_flip (-1) p v). by rewrite opp_opp_one.
Qed.

(** Case analysis on the items of a concrete ranking. *)
Ltac items Hx :=
  repeat (apply elem_of_cons in Hx as [->|Hx]); [..|by apply elem_of_nil in Hx].

Lemma ranking4_NoDup : NoDup [2; 1; 3; 0]%Z.
Proof. apply (bool_decide_unpack _). by vm_compute. Qed.

Lemma pref4_antisymmetric : antisymmetric_on [2; 1; 3; 0]%Z pref4.
Proof.
  intros x y p Hx Hy Hne Hp. items Hx; items Hy; try done;
    vm_compute in Hp; injection Hp as <-; run.
Qed.

Lemma dense_sparse_equivalence_witness :
  eta_dict [2; 1; 3; 0]%Z zdict4 = eta [2; 1; 3; 0]%Z pref4
  ∧ eta_p_dict [2; 1; 3; 0]%Z zdict4 zvar4 = eta_p [2; 1; 3; 0]%Z pref4 var4.
Proof.
  pose proof ranking4_NoDup as Hnd.
  pose proof pref4_antisymmetric as Hanti.
  assert (symmetric_on [2; 1; 3; 0]%Z var4) as Hsym.
  { intros x y p Hx Hy Hne Hp. items Hx; items Hy; try done;
      vm_compute in Hp; injection Hp as <-; run. }
  assert (agrees_on [2; 1; 3; 0]%Z zdict4 pref4) as Hagree.
  { intros x y p Hx Hy Hp. items Hx; items Hy;
      vm_compute in Hp; try done; injection Hp as <-; run. }
  assert (agrees_on [2; 1; 3; 0]%Z zvar4 var4) as HagreeV.
  { intros x y p Hx Hy Hp. items Hx; items Hy;
      vm_compute in Hp; try done; injection Hp as <-; run. }
  assert (covers [2; 1; 3; 0]%Z zdict4) as Hcover.
  { intros x y Hx Hy Hne. items Hx; items Hy; try done;
      first [ left; by eexists | right; by eexists ]. }
  assert (same_keys_on [2; 1; 3; 0]%Z zdict4 zvar4) as Hkeys.
  { intros x y Hx Hy [p Hp]. items Hx; items Hy;
      vm_compute in Hp; try done; by eexists. }
  destruct (dense_sparse_equivalence [2; 1; 3; 0]%Z pref4 pref4 var4
              zdict4 zdict4 zvar4 Hnd) as [Hplain Hweighted].
  split; [by apply Hplain | by apply Hweighted].
Defined.

(** ** Reversing the ranking *)



(** * The functions on binary64 numbers *)

(** ** Binary64 arithmetic

    What the proofs below need of IEEE arithmetic, from the
    specification of the primitive floats ([FloatAxioms], [SpecFloat]):
    multiplying by 1 or by -1 and negating are exact, rounding is
    symmetric in the sign, a number divided by itself is 1, and a sum is
    [-0.0] only if both numbers are. *)
Lemma Prim2SF_one : Prim2SF 1 = S754_finite false 4503599627370496 (-52).
Proof. reflexivity. Qed.

Lemma Prim2SF_minus_one : Prim2SF (-1) = S754_finite true 4503599627370496 (-52).
Proof. reflexivity. Qed.

Lemma float_opp_involutive (x : float) : (- - x)%float = x.
Proof.
  apply Prim2SF_inj. rewrite !FloatAxioms.opp_spec.
  by destruct (Prim2SF x) as [[]|[]| |[] ? ?].
Qed.

Lemma binary_round_aux_opp (s : bool) (m e : Z) (l : location) :
  binary_round_aux prec emax (negb s) m e l = SFopp (binary_round_aux prec emax s m e l).
Proof.
  unfold binary_round_aux.
  destruct (shr_fexp prec emax m e l) as [mrs' e'].
  destruct (shr_fexp prec emax _ e' loc_Exact) as [mrs'' e''].
  destruct (shr_m mrs''); [done| |done].
  by destruct (e'' <=? emax - prec)%Z.
Qed.


Lemma digits2_pos_shift52 (m : positive) :
  Z.pos (digits2_pos (4503599627370496 * m)) = (Z.pos (digits2_pos m) + 52)%Z.
Proof.
  change (4503599627370496 * m)%positive with
    (Pos.iter xO m 52).
  cbn [Pos.iter PosDef.Pos.iter digits2_pos].
  rewrite !Pos2Z.inj_succ. lia.
Qed.

Lemma shr_shift52 (m : positive) :
  SpecFloat.iter_pos shr_1 52%positive {| shr_m := Z.pos (4503599627370496 * m); shr_r := false; shr_s := false |}
  = {| shr_m := Z.pos m; shr_r := false; shr_s := false |}.
Proof. reflexivity. Qed.

Lemma bounded_inv (m : positive) (e : Z) :
  SpecFloat.bounded prec emax m e = true →
  fexp prec emax (Z.pos (digits2_pos m) + e) = e ∧ (e <=? emax - prec)%Z = true.
Proof.
  unfold SpecFloat.bounded, canonical_mantissa. intros [H1 H2]%andb_true_iff.
  split; [by apply Z.eqb_eq|done].
Qed.

Lemma binary_round_aux_shift52 (s : bool) (m : positive) (e : Z) :
  SpecFloat.bounded prec emax m e = true →
  binary_round_aux prec emax s (Z.pos (m * 4503599627370496)) (e + -52) loc_Exact
  = S754_finite s m e.
Proof.
  intros Hb. pose proof (bounded_inv _ _ Hb) as [Hm He].
  rewrite Pos.mul_comm.
  unfold binary_round_aux. unfold shr_fexp at 1.
  cbn [Zdigits2 shr_record_of_loc].
  rewrite digits2_pos_shift52.
  replace (Z.pos (digits2_pos m) + 52 + (e + -52))%Z with (Z.pos (digits2_pos m) + e)%Z by lia.
  rewrite Hm.
  replace (e - (e + -52))%Z with 52%Z by lia.
  unfold shr. rewrite shr_shift52.
  replace (e + -52 + 52)%Z with e by lia.
  cbn [shr_m loc_of_shr_record round_nearest_even].
  unfold shr_fexp. cbn [Zdigits2 shr_record_of_loc].
  rewrite Hm, Z.sub_diag. cbn [shr shr_m]. by rewrite He.
Qed.

Lemma float_mul_1_r (x : float) : (x * 1)%float = x.
Proof.
  apply Prim2SF_inj. rewrite FloatAxioms.mul_spec, Prim2SF_one.
  pose proof (Prim2SF_valid x) as Hv.
  destruct (Prim2SF x) as [[]|[]| |s m e]; try done.
  unfold SF64mul, SFmul. rewrite binary_round_aux_shift52 by done.
  by destruct s.
Qed.

Lemma float_mul_m1_r (x : float) : (x * -1)%float = (- x)%float.
Proof.
  apply Prim2SF_inj. rewrite FloatAxioms.mul_spec, FloatAxioms.opp_spec, Prim2SF_minus_one.
  pose proof (Prim2SF_valid x) as Hv.
  destruct (Prim2SF x) as [[]|[]| |s m e]; try done.
  unfold SF64mul, SFmul. rewrite binary_round_aux_shift52 by done.
  by destruct s.
Qed.

Lemma float_div_opp_l (x y : float) : (- x / y)%float = (- (x / y))%float.
Proof.
  apply Prim2SF_inj. rewrite !FloatAxioms.div_spec, !FloatAxioms.opp_spec, FloatAxioms.div_spec.
  destruct (Prim2SF x) as [sx|sx| |sx mx ex], (Prim2SF y) as [sy|sy| |sy my ey];
    try done; try (by destruct sx, sy).
  unfold SF64div, SFdiv, SFopp at 1.
  destruct (SFdiv_core_binary _ _ _ _ _ _) as [[mz ez] lz].
  rewrite <- binary_round_aux_opp. by destruct sx, sy.
Qed.










Lemma shr_m_shr_1 (r : shr_record) :
  (0 ≤ shr_m r)%Z → shr_m (shr_1 r) = (shr_m r / 2)%Z.
Proof.
  destruct r as [[|[p|p|]|p] b s]; simpl; intros Hm; try done; try lia.
  - change (Z.pos p~1) with (2 * Z.pos p + 1)%Z. apply (Z.div_unique _ 2 _ 1); lia.
  - change (Z.pos p~0) with (2 * Z.pos p)%Z. apply (Z.div_unique _ 2 _ 0); lia.
Qed.

Lemma shr_m_iter_pos (k : positive) (r : shr_record) :
  (0 ≤ shr_m r)%Z →
  shr_m (SpecFloat.iter_pos shr_1 k r) = (shr_m r / 2 ^ Z.pos k)%Z.
Proof.
  revert r. induction k as [k IH|k IH|]; intros r Hr; simpl SpecFloat.iter_pos.
  - assert (0 ≤ shr_m (shr_1 r))%Z as H1
      by (rewrite shr_m_shr_1 by done; by apply Z.div_pos).
    assert (0 ≤ shr_m (SpecFloat.iter_pos shr_1 k (shr_1 r)))%Z as H2
      by (rewrite IH by done; apply Z.div_pos; lia).
    rewrite IH, IH, shr_m_shr_1 by done.
    rewrite !Z.div_div by lia. f_equal.
    replace (Z.pos k~1) with (Z.pos k + Z.pos k + 1)%Z by lia.
    rewrite !Z.pow_add_r by lia. change (2 ^ 1)%Z with 2%Z. ring.
  - assert (0 ≤ shr_m (SpecFloat.iter_pos shr_1 k r))%Z as H2
      by (rewrite IH by done; apply Z.div_pos; lia).
    rewrite IH, IH by done.
    rewrite !Z.div_div by lia. f_equal.
    replace (Z.pos k~0) with (Z.pos k + Z.pos k)%Z by lia.
    by rewrite Z.pow_add_r by lia.
  - by rewrite shr_m_shr_1.
Qed.

Lemma digits2_pos_le (m : positive) : (2 ^ (Z.pos (digits2_pos m) - 1) ≤ Z.pos m)%Z.
Proof.
  induction m as [m IH|m IH|]; simpl digits2_pos; [| |done].
  - rewrite Pos2Z.inj_succ. change (Z.pos m~1) with (2 * Z.pos m + 1)%Z.
    replace (Z.succ (Z.pos (digits2_pos m)) - 1)%Z
      with (Z.succ (Z.pos (digits2_pos m) - 1)) by lia.
    rewrite Z.pow_succ_r by lia.
    revert IH. generalize (2 ^ (Z.pos (digits2_pos m) - 1))%Z. lia.
  - rewrite Pos2Z.inj_succ. change (Z.pos m~0) with (2 * Z.pos m)%Z.
    replace (Z.succ (Z.pos (digits2_pos m)) - 1)%Z
      with (Z.succ (Z.pos (digits2_pos m) - 1)) by lia.
    rewrite Z.pow_succ_r by lia.
    revert IH. generalize (2 ^ (Z.pos (digits2_pos m) - 1))%Z. lia.
Qed.

Lemma shr_m_of_loc (m : Z) (l : location) : shr_m (shr_record_of_loc m l) = m.
Proof. by destruct l as [|[]]. Qed.

(** Rounding to the format never turns a positive mantissa into 0 when
    the exponent is in range: a sum or a difference of two numbers does
    not underflow. *)
Lemma shr_fexp_pos (m : positive) (e : Z) (l : location) :
  (emin ≤ e)%Z →
  ∃ m', shr_m (shr_fexp prec emax (Z.pos m) e l).1 = Z.pos m'
        ∧ (emin ≤ (shr_fexp prec emax (Z.pos m) e l).2)%Z.
Proof.
  intros He. unfold shr_fexp, shr. cbn [Zdigits2].
  destruct (fexp prec emax (Z.pos (digits2_pos m) + e) - e)%Z as [|k|k] eqn:Hk;
    cbn [fst snd]; rewrite ?shr_m_of_loc; try (by eexists).
  rewrite shr_m_iter_pos, shr_m_of_loc by (by rewrite shr_m_of_loc).
  assert (Z.pos k ≤ Z.pos (digits2_pos m) - 1)%Z as Hle.
  { unfold fexp, SpecFloat.emin in Hk, He.
    change prec with 53%Z in Hk, He. change emax with 1024%Z in Hk, He. lia. }
  pose proof (digits2_pos_le m) as Hm.
  assert (2 ^ Z.pos k ≤ 2 ^ (Z.pos (digits2_pos m) - 1))%Z as Hpow
    by (apply Z.pow_le_mono_r; lia).
  assert (0 < Z.pos m / 2 ^ Z.pos k)%Z as Hpos
    by (apply Z.div_str_pos; lia).
  destruct (Z.pos m / 2 ^ Z.pos k)%Z as [|m'|m']; [lia| |lia].
  exists m'. split; [done|lia].
Qed.

Lemma round_nearest_even_pos (m : positive) (l : location) :
  ∃ m', round_nearest_even (Z.pos m) l = Z.pos m'.
Proof.
  destruct l as [|[]]; simpl; try (by eexists).
  destruct m; by eexists.
Qed.

Lemma binary_round_aux_nonzero (s s' : bool) (m : positive) (e : Z) (l : location) :
  (emin ≤ e)%Z →
  binary_round_aux prec emax s (Z.pos m) e l ≠ S754_zero s'.
Proof.
  intros He. unfold binary_round_aux.
  destruct (shr_fexp_pos m e l He) as (m1 & Hm1 & He1).
  destruct (shr_fexp prec emax (Z.pos m) e l) as [mrs' e'].
  cbn [fst snd] in Hm1, He1. rewrite Hm1.
  destruct (round_nearest_even_pos m1 (loc_of_shr_record mrs')) as (m2 & ->).
  destruct (shr_fexp_pos m2 e' loc_Exact He1) as (m3 & Hm3 & He3).
  destruct (shr_fexp prec emax (Z.pos m2) e' loc_Exact) as [mrs'' e''].
  cbn [fst snd] in Hm3. rewrite Hm3.
  by destruct (e'' <=? emax - prec)%Z.
Qed.

Lemma binary_round_nonzero (s s' : bool) (m : positive) (e : Z) :
  (emin ≤ e)%Z → binary_round prec emax s m e ≠ S754_zero s'.
Proof.
  intros He. unfold binary_round, shl_align.
  destruct (fexp prec emax (Z.pos (digits2_pos m) + e) - e)%Z as [|k|k] eqn:Hk;
    apply binary_round_aux_nonzero; try done.
  unfold fexp. lia.
Qed.

Lemma valid_binary_emin (s : bool) (m : positive) (e : Z) :
  valid_binary (S754_finite s m e) = true → (emin ≤ e)%Z.
Proof.
  unfold SpecFloat.valid_binary, SpecFloat.bounded, canonical_mantissa.
  intros [H1%Z.eqb_eq _]%andb_true_iff. unfold fexp in H1. lia.
Qed.

(** A sum is [-0.0] only if both numbers are. *)
Lemma SFadd_negative_zero (a b : spec_float) :
  valid_binary a = true → valid_binary b = true →
  SF64add a b = S754_zero true → a = S754_zero true ∧ b = S754_zero true.
Proof.
  intros Ha Hb.
  destruct a as [sa|sa| |sa ma ea], b as [sb|sb| |sb mb eb]; simpl;
    try done; try (by destruct sa); try (by destruct sb); try (by destruct sa, sb).
  apply valid_binary_emin in Ha, Hb.
  unfold binary_normalize.
  destruct (_ + _)%Z as [|z|z]; [done| |];
    intros Hz; by apply binary_round_nonzero in Hz; [|lia].
Qed.

Lemma float_add_negative_zero (a b : float) :
  (a + b)%float = neg_zero → a = neg_zero ∧ b = neg_zero.
Proof.
  intros Hab.
  destruct (SFadd_negative_zero (Prim2SF a) (Prim2SF b)) as [Ha Hb].
  - apply Prim2SF_valid.
  - apply Prim2SF_valid.
  - by rewrite <- FloatAxioms.add_spec, Hab.
  - split; by apply Prim2SF_inj.
Qed.

(** Adding a zero of either sign to a number other than [-0.0]. *)
Lemma float_add_zero_r (a z : float) :
  a ≠ neg_zero → is_zero z = true → (a + z)%float = a.
Proof.
  unfold is_zero. rewrite FloatAxioms.eqb_spec. intros Ha Hz.
  apply Prim2SF_inj. rewrite FloatAxioms.add_spec.
  assert (Prim2SF a ≠ S754_zero true) as Ha'.
  { intros Heq. apply Ha. by apply Prim2SF_inj. }
  destruct (Prim2SF z) as [sz|sz| |sz mz ez]; try done; try (by destruct sz).
  destruct (Prim2SF a) as [[]|sa| |sa ma ea]; try done; by destruct sz.
Qed.

(** ** The loops of the binary64 functions, pair by pair *)

Lemma for_ext {A St} (l : list A) (f g : A → St → result St) (s : St) :
  (∀ a s', a ∈ l → f a s' = g a s') → for_ l f s = for_ l g s.
Proof.
  revert s. induction l as [|a l IH]; intros s Hfg; simpl; [done|].
  rewrite (Hfg a s) by left. destruct (g a s) as [s'|e]; simpl; [|done].
  apply IH. intros b s'' Hb. apply Hfg. by right.
Qed.


Lemma binary64_eta_dict_sums_pairs `{Countable K}
    (ranking : list K) (pref : gmap (K * K) float) :
  Binary64.eta_dict_sums ranking pref
  = for_ (pairs ranking) (Binary64.eta_dict_step pref) (0, 0)%float.
Proof.
  unfold Binary64.eta_dict_sums.
  apply pair_loop_pairs. intros i j x y [e ideal] Hij Hx Hy.
  rewrite (list_getitem_lookup _ _ _ Hx), (list_getitem_lookup _ _ _ Hy).
  unfold Binary64.eta_dict_step, Binary64.add_term, Binary64.term_of, dict_getitem.
  simpl. rewrite !dict_contains_lookup.
  destruct (pref !! (x, y)) as [p|]; simpl.
  { by rewrite decide_True by done. }
  destruct (pref !! (y, x)) as [p|]; simpl; [|done].
  by rewrite decide_False by lia.
Qed.

Lemma binary64_eta_p_dict_sums_pairs `{Countable K}
    (ranking : list K) (Ep Vp : gmap (K * K) float) :
  Binary64.eta_p_dict_sums ranking Ep Vp
  = for_ (pairs ranking) (Binary64.eta_p_dict_step Ep Vp) (0, 0)%float.
Proof.
  unfold Binary64.eta_p_dict_sums.
  apply pair_loop_pairs. intros i j x y [e ideal] Hij Hx Hy.
  rewrite (list_getitem_lookup _ _ _ Hx), (list_getitem_lookup _ _ _ Hy).
  unfold Binary64.eta_p_dict_step, Binary64.add_term, Binary64.term_of, dict_getitem.
  simpl. rewrite !dict_contains_lookup.
  destruct (Ep !! (x, y)) as [ep|]; simpl.
  { destruct (Vp !! (x, y)) as [vp|]; simpl; [|done].
    destruct (Binary64.truediv _ _) as [label|err]; simpl; [|done].
    by rewrite decide_True by done. }
  destruct (Ep !! (y, x)) as [ep|]; simpl; [|done].
  destruct (Vp !! (y, x)) as [vp|]; simpl; [|done].
  destruct (Binary64.truediv _ _) as [label|err]; simpl; [|done].
  by rewrite decide_False by lia.
Qed.



(** ** The direction in which a pair is stored, on binary64 numbers *)

Lemma float_opp_one : (- (1))%float = (-1)%float.
Proof. reflexivity. Qed.

Lemma float_opp_minus_one : (- (-1))%float = 1%float.
Proof. reflexivity. Qed.

Lemma true_delta_cases_float (p : float) :
  Binary64.true_delta p = 1%float ∨ Binary64.true_delta p = (-1)%float.
Proof. unfold Binary64.true_delta. destruct (0.5 <? p)%float; auto. Qed.

(** Multiplying the negated label by the negated direction. *)
Lemma float_mul_opp_sign (l d : float) :
  d = 1%float ∨ d = (-1)%float → (- l * - d)%float = (l * d)%float.
Proof.
  intros [->| ->].
  - by rewrite float_opp_one, float_mul_m1_r, float_opp_involutive, float_mul_1_r.
  - by rewrite float_opp_minus_one, float_mul_1_r, float_mul_m1_r.
Qed.

Lemma mirrored_term (l : float) (p q : float) :
  Binary64.true_delta q = (- Binary64.true_delta p)%float →
  Binary64.term_of (- l)%float (-1)%float q = Binary64.term_of l 1%float p
  ∧ Binary64.term_of (- l)%float 1%float q = Binary64.term_of l (-1)%float p.
Proof.
  intros Htd. unfold Binary64.term_of. rewrite Htd.
  rewrite (float_mul_opp_sign l _ (true_delta_cases_float p)).
  by rewrite !float_mul_m1_r, !float_mul_1_r, float_opp_involutive.
Qed.

Lemma mirrored_label (p q v : float) :
  (2 * q - 1 = - (2 * p - 1))%float →
  Binary64.truediv (2 * q - 1)%float (1 + v)%float
  = (l ← Binary64.truediv (2 * p - 1)%float (1 + v)%float; Ok (- l)%float).
Proof.
  intros ->. unfold Binary64.truediv.
  destruct (1 + v =? 0)%float; [done|]. simpl. by rewrite float_div_opp_l.
Qed.

(** A zero label: the tie. *)
Lemma float_zero_div (d : float) :
  is_zero (0 / d)%float = true ∨ (0 / d)%float = nan.
Proof.
  unfold is_zero. rewrite FloatAxioms.eqb_spec.
  destruct (Prim2SF (0 / d)%float) as [s|s| |s m e] eqn:Hd; auto.
  - rewrite FloatAxioms.div_spec in Hd.
    by destruct (Prim2SF d) as [[]|[]| |[] ? ?].
  - right. by apply Prim2SF_inj.
  - rewrite FloatAxioms.div_spec in Hd.
    by destruct (Prim2SF d) as [[]|[]| |[] ? ?].
Qed.

Lemma float_is_zero_opp (z : float) : is_zero z = true → is_zero (- z)%float = true.
Proof.
  unfold is_zero. rewrite !FloatAxioms.eqb_spec, FloatAxioms.opp_spec.
  by destruct (Prim2SF z) as [[]|[]| |[] ? ?].
Qed.

(** Neither sum is ever [-0.0]: they start at [0] and a sum is [-0.0]
    only if both numbers are. *)
Lemma add_term_no_negative_zero (t : result Binary64.sums) (s s' : Binary64.sums) :
  Binary64.no_negative_zero s → Binary64.add_term t s = Ok s' → Binary64.no_negative_zero s'.
Proof.
  intros [H1 H2]. unfold Binary64.add_term.
  destruct t as [c|err]; simpl; [|done]. intros [= <-].
  split; simpl; intros [Hs _]%float_add_negative_zero; done.
Qed.

Lemma eta_dict_step_no_negative_zero `{Countable K}
    (pref : gmap (K * K) float) (xy : K * K) (s s' : Binary64.sums) :
  Binary64.no_negative_zero s → Binary64.eta_dict_step pref xy s = Ok s' → Binary64.no_negative_zero s'.
Proof.
  intros Hs. unfold Binary64.eta_dict_step.
  repeat case_match; try (by apply add_term_no_negative_zero).
  by intros [= <-].
Qed.

Lemma eta_p_dict_step_no_negative_zero `{Countable K}
    (Ep Vp : gmap (K * K) float) (xy : K * K) (s s' : Binary64.sums) :
  Binary64.no_negative_zero s →
  Binary64.eta_p_dict_step Ep Vp xy s = Ok s' → Binary64.no_negative_zero s'.
Proof.
  intros Hs. unfold Binary64.eta_p_dict_step.
  repeat case_match; try (by apply add_term_no_negative_zero).
  by intros [= <-].
Qed.

Lemma for_ext_inv {A St} (I : St → Prop) (l : list A)
    (f g : A → St → result St) (s : St) :
  I s →
  (∀ a s', a ∈ l → I s' → f a s' = g a s') →
  (∀ a s' s'', a ∈ l → I s' → g a s' = Ok s'' → I s'') →
  for_ l f s = for_ l g s.
Proof.
  revert s. induction l as [|a l IH]; intros s Hs Hfg Hinv; simpl; [done|].
  rewrite (Hfg a s) by (done || left).
  destruct (g a s) as [s'|e] eqn:Hg; simpl; [|done].
  apply IH.
  - apply (Hinv a s s'); done || left.
  - intros b s'' Hb. apply Hfg. by right.
  - intros b s1 s2 Hb. apply Hinv. by right.
Qed.

(** The two ways of storing a tie add the same to sums that are not
    [-0.0]. *)
Lemma tie_add_term (l : float) (s : Binary64.sums) :
  Binary64.no_negative_zero s →
  is_zero l = true ∨ l = nan →
  Binary64.add_term (Ok (Binary64.term_of l 1 0.5)) s
  = Binary64.add_term (Ok (Binary64.term_of l (-1) 0.5)) s.
Proof.
  intros [Hs _] Hl. unfold Binary64.add_term, Binary64.term_of. simpl.
  rewrite float_mul_1_r, !float_mul_m1_r. do 2 f_equal.
  destruct Hl as [Hz| ->].
  - by rewrite !float_add_zero_r by (done || by apply float_is_zero_opp).
  - reflexivity.
Qed.

Lemma float_no_negative_zero_start : Binary64.no_negative_zero (0, 0)%float.
Proof. split; simpl; intros Hz; by apply (f_equal Prim2SF) in Hz. Qed.

(** C5 -- on binary64 numbers, for distinct items [x] and [y] and dicts
    that hold the pair in neither direction, storing the pair as
    [(x, y): p] or as [(y, x): q] gives the same result of [eta_dict] on
    every ranking, and the same result of [eta_p_dict] when the variance
    of the pair is stored under the same flipped key, provided [q] is an
    exact mirror of [p] (the label [2 * q - 1] is the negation of
    [2 * p - 1], bit for bit, and [q] lies on the other side of 0.5) or
    both are the tie 0.5.  For [q = 1 - p] that is so whenever the
    subtraction and the two labels are exact (0.8 and [1 - 0.8], 0.75 and
    0.25); it is not so for 0.2 and [1 - 0.2 == 0.8], whose labels are
    -0.6 and 0.6000000000000001. *)
Theorem storage_direction_invariance `{Countable K}
    (r : list K) (pref Ep Vp : gmap (K * K) float) (x y : K) (p q v : float) :
  x ≠ y →
  pref !! (x, y) = None → pref !! (y, x) = None →
  Ep !! (x, y) = None → Ep !! (y, x) = None →
  Binary64.mirrored p q ∨ (p = 0.5%float ∧ q = 0.5%float) →
  Binary64.eta_dict r (<[(x, y) := p]> pref) = Binary64.eta_dict r (<[(y, x) := q]> pref)
  ∧ Binary64.eta_p_dict r (<[(x, y) := p]> Ep) (<[(x, y) := v]> Vp)
    = Binary64.eta_p_dict r (<[(y, x) := q]> Ep) (<[(y, x) := v]> Vp).
Proof.
  intros Hxy Hp1 Hp2 HE1 HE2 [[Hl Htd]|[-> ->]].
  - split.
    + unfold Binary64.eta_dict. rewrite !binary64_eta_dict_sums_pairs.
      f_equal. apply for_ext. intros [a b] s _.
      unfold Binary64.eta_dict_step. cbn [fst snd]. rewrite !lookup_insert.
      repeat case_decide; simplify_eq; rewrite ?Hp1, ?Hp2; try done.
      * rewrite Hl. by destruct (mirrored_term (2 * p - 1)%float p q Htd) as [-> _].
      * rewrite Hl. by destruct (mirrored_term (2 * p - 1)%float p q Htd) as [_ ->].
    + unfold Binary64.eta_p_dict. rewrite !binary64_eta_p_dict_sums_pairs.
      f_equal. apply for_ext. intros [a b] s _.
      unfold Binary64.eta_p_dict_step, dict_getitem. cbn [fst snd].
      rewrite !lookup_insert.
      repeat case_decide; simplify_eq; rewrite ?HE1, ?HE2; try done.
      * rewrite !bind_Ok, (mirrored_label p q v Hl).
        destruct (Binary64.truediv _ _) as [l|err]; [|done].
        rewrite !bind_Ok. by destruct (mirrored_term l p q Htd) as [-> _].
      * rewrite !bind_Ok, (mirrored_label p q v Hl).
        destruct (Binary64.truediv _ _) as [l|err]; [|done].
        rewrite !bind_Ok. by destruct (mirrored_term l p q Htd) as [_ ->].
  - split.
    + unfold Binary64.eta_dict. rewrite !binary64_eta_dict_sums_pairs.
      f_equal. apply (for_ext_inv Binary64.no_negative_zero).
      * apply float_no_negative_zero_start.
      * intros [a b] s _ Hs.
        unfold Binary64.eta_dict_step. cbn [fst snd]. rewrite !lookup_insert.
        repeat case_decide; simplify_eq; rewrite ?Hp1, ?Hp2; try done.
        -- apply tie_add_term; [done|]. by left.
        -- symmetry. apply tie_add_term; [done|]. by left.
      * intros a s s' _. apply eta_dict_step_no_negative_zero.
    + unfold Binary64.eta_p_dict. rewrite !binary64_eta_p_dict_sums_pairs.
      f_equal. apply (for_ext_inv Binary64.no_negative_zero).
      * apply float_no_negative_zero_start.
      * intros [a b] s _ Hs.
        unfold Binary64.eta_p_dict_step, dict_getitem. cbn [fst snd].
        rewrite !lookup_insert.
        repeat case_decide; simplify_eq; rewrite ?HE1, ?HE2; try done.
        -- rewrite !bind_Ok. unfold Binary64.truediv.
           change (2 * 0.5 - 1)%float with 0%float.
           destruct (1 + v =? 0)%float; [done|]. rewrite !bind_Ok.
           apply tie_add_term; [done|]. apply float_zero_div.
        -- rewrite !bind_Ok. unfold Binary64.truediv.
           change (2 * 0.5 - 1)%float with 0%float.
           destruct (1 + v =? 0)%float; [done|]. rewrite !bind_Ok.
           symmetry. apply tie_add_term; [done|]. apply float_zero_div.
      * intros a s s' _. apply eta_p_dict_step_no_negative_zero.
Qed.

Lemma storage_direction_invariance_witness :
  (Binary64.eta_dict ["c"; "b"; "d"; "a"]%string
     (<[("a", "b")%string := 0.8%float]> Binary64.dict_rest)
   = Binary64.eta_dict ["c"; "b"; "d"; "a"]%string
       (<[("b", "a")%string := (1 - 0.8)%float]> Binary64.dict_rest)
   ∧ Binary64.eta_p_dict ["c"; "b"; "d"; "a"]%string
       (<[("a", "b")%string := 0.8%float]> Binary64.dict_rest)
       (<[("a", "b")%string := 0.5%float]> Binary64.dict_rest)
     = Binary64.eta_p_dict ["c"; "b"; "d"; "a"]%string
         (<[("b", "a")%string := (1 - 0.8)%float]> Binary64.dict_rest)
         (<[("b", "a")%string := 0.5%float]> Binary64.dict_rest))
  ∧ Binary64.eta_dict ["c"; "b"; "d"; "a"]%string
      (<[("a", "b")%string := 0.5%float]> Binary64.dict_rest)
    = Binary64.eta_dict ["c"; "b"; "d"; "a"]%string
        (<[("b", "a")%string := 0.5%float]> Binary64.dict_rest).
Proof.
  split.
  - apply storage_direction_invariance; try done. left. by split.
  - apply (storage_direction_invariance _ _ Binary64.dict_rest Binary64.dict_rest
             _ _ _ _ 0%float); try done. by right.
Defined.

(** With [q = 1 - p] rounded the results differ: the doctest's own
    entries, the pair [a], [b] stored as [(a, b): 0.2] or as
    [(b, a): 1 - 0.2], which is [0.8]. *)
Lemma storage_direction_invariance_counterexample :
  Binary64.eta_dict ["c"; "b"; "a"; "d"]%string
    (<[("a", "b")%string := 0.2%float]> Binary64.dict_rest) = Ok 0.3333333333333333%float
  ∧ Binary64.eta_dict ["c"; "b"; "a"; "d"]%string
      (<[("b", "a")%string := (1 - 0.2)%float]> Binary64.dict_rest)
    = Ok 0.33333333333333343%float
  ∧ (0.3333333333333333 =? 0.33333333333333343)%float = false.
Proof. repeat split; by vm_compute. Qed.

(** ** Reversing the ranking, on binary64 numbers *)
















(** * Further properties of the four functions *)

(** ** Which exceptions can be raised, and when *)

Lemma list_getitem_exn {A} (l : list A) (k : Z) (e : exn) :
  list_getitem l k = Raise e → e = IndexError.
Proof.
  unfold list_getitem.
  destruct (decide _) as [?|?]; [by intros [= <-]|].
  destruct (l !! _); [done|]. by intros [= <-].
Qed.

Lemma getitem2_exn (m : list (list Qc)) (x y : Z) (e : exn) :
  getitem2 m x y = Raise e → e = IndexError.
Proof.
  unfold getitem2. destruct (list_getitem m x) as [row|err] eqn:Hx; simpl.
  - apply list_getitem_exn.
  - intros [= <-]. by apply list_getitem_exn in Hx.
Qed.

Lemma list_getitem_in_bounds {A} (l : list A) (k : Z) :
  in_bounds (length l) k ↔ ∃ a, list_getitem l k = Ok a.
Proof.
  unfold in_bounds, list_getitem.
  set (k' := if decide (k < 0)%Z then (k + Z.of_nat (length l))%Z else k).
  split.
  - intros Hk. assert (0 ≤ k' < Z.of_nat (length l))%Z as Hk'.
    { unfold k'. destruct (decide (k < 0)%Z); lia. }
    rewrite decide_False by lia.
    destruct (lookup_lt_is_Some_2 l (Z.to_nat k')) as [a ->]; [lia|]. by exists a.
  - intros [a Ha]. destruct (decide (k' < 0)%Z) as [|Hk']; [done|].
    destruct (l !! Z.to_nat k') as [b|] eqn:Hl; [|done].
    apply lookup_lt_Some in Hl. unfold k' in *.
    destruct (decide (k < 0)%Z); lia.
Qed.

Lemma getitem2_in_bounds (n : nat) (m : list (list Qc)) (x y : Z) :
  square n m → (in_bounds n x ∧ in_bounds n y ↔ ∃ p, getitem2 m x y = Ok p).
Proof.
  intros [Hlen Hrows]. unfold getitem2. split.
  - intros [Hx Hy]. rewrite <- Hlen in Hx.
    apply list_getitem_in_bounds in Hx as [row Hrow]. rewrite Hrow. simpl.
    apply list_getitem_in_bounds.
    apply list_getitem_Ok in Hrow as (i & _ & Hi & _).
    rewrite Forall_lookup in Hrows. by rewrite (Hrows i row Hi).
  - intros [p Hp]. destruct (list_getitem m x) as [row|err] eqn:Hrow; [|done].
    simpl in Hp. split.
    + rewrite <- Hlen. apply list_getitem_in_bounds. by exists row.
    + apply list_getitem_Ok in Hrow as (i & _ & Hi & _).
      rewrite Forall_lookup in Hrows. rewrite <- (Hrows i row Hi).
      apply list_getitem_in_bounds. by exists p.
Qed.

Lemma collect_Raise_inv {A} (t : A → result sums) (l : list A) (e : exn) :
  collect t l = Raise e → ∃ a, a ∈ l ∧ t a = Raise e.
Proof.
  induction l as [|a l IH]; simpl; [done|].
  destruct (t a) as [c|err] eqn:Hta; simpl.
  - destruct (collect t l) as [cs|err]; simpl; [done|].
    intros [= <-]. destruct (IH eq_refl) as (b & Hb & Htb).
    exists b. split; [by right|done].
  - intros [= <-]. exists a. split; [left|done].
Qed.

Lemma truediv_exn (a b : Qc) (e : exn) :
  truediv a b = Raise e → e = ZeroDivisionError ∧ b = 0.
Proof. unfold truediv. destruct (decide (b = 0)); [by intros [= <-]|done]. Qed.

Lemma measure_over_Raise_inv {A} (t : A → result sums) (ps : list A) (e : exn) :
  measure_over t ps = Raise e →
  (e = ZeroDivisionError ∧ ∃ _eta, sums_over t ps = Ok (_eta, 0))
  ∨ ∃ a, a ∈ ps ∧ t a = Raise e.
Proof.
  unfold measure_over, sums_over.
  destruct (collect t ps) as [cs|err] eqn:Hcs; simpl.
  - destruct (total cs) as [_eta ideal]. intros [-> ->]%truediv_exn.
    left. split; [done|]. by exists _eta.
  - intros [= <-]. right. by apply collect_Raise_inv.
Qed.

Lemma elem_has_pair {A} (r : list A) (x : A) :
  x ∈ r → (2 ≤ length r)%nat → ∃ y, (x, y) ∈ pairs r ∨ (y, x) ∈ pairs r.
Proof.
  intros [i Hi]%list_elem_of_lookup_1 Hlen.
  destruct i as [|i].
  - destruct (lookup_lt_is_Some_2 r 1) as [y Hy]; [lia|].
    exists y. left. apply (pairs_elem r 0 1); [lia|done..].
  - destruct (lookup_lt_is_Some_2 r 0) as [y Hy]; [lia|].
    exists y. right. apply (pairs_elem r 0 (S i)); [lia|done..].
Qed.

Lemma eta_dict_term_Ok `{Countable K} (pref : gmap (K * K) Qc) (xy : K * K) :
  ∃ c, eta_dict_term pref xy = Ok c.
Proof.
  unfold eta_dict_term. destruct (pref !! (xy.1, xy.2)); [by eexists|].
  destruct (pref !! (xy.2, xy.1)); by eexists.
Qed.

Lemma eta_p_dict_term_exn `{Countable K} (Ep Vp : gmap (K * K) Qc) xy (e : exn) :
  eta_p_dict_term Ep Vp xy = Raise e →
  (e = KeyError ∧
   ((is_Some (Ep !! (xy.1, xy.2)) ∧ Vp !! (xy.1, xy.2) = None)
    ∨ (Ep !! (xy.1, xy.2) = None ∧ is_Some (Ep !! (xy.2, xy.1))
       ∧ Vp !! (xy.2, xy.1) = None)))
  ∨ e = ZeroDivisionError.
Proof.
  unfold eta_p_dict_term, dict_getitem.
  destruct (Ep !! (xy.1, xy.2)) as [ep|].
  { destruct (Vp !! (xy.1, xy.2)) as [vp|]; simpl.
    - destruct (truediv _ _) as [label|err] eqn:Hdiv; simpl; [done|].
      intros [= <-]. right. by apply truediv_exn in Hdiv as [-> _].
    - intros [= <-]. left. split; [done|]. left. split; [by eexists|done]. }
  destruct (Ep !! (xy.2, xy.1)) as [ep|]; [|done].
  destruct (Vp !! (xy.2, xy.1)) as [vp|]; simpl.
  - destruct (truediv _ _) as [label|err] eqn:Hdiv; simpl; [done|].
    intros [= <-]. right. by apply truediv_exn in Hdiv as [-> _].
  - intros [= <-]. left. split; [done|]. right. split; [done|]. split; [by eexists|done].
Qed.

(** X1 -- [eta_dict] never fails on a subscript: for every ranking and
    every dict its two loops run to the end (a key is read only after the
    test that it is there), so the call returns a value or raises
    [ZeroDivisionError], and never [KeyError] or [IndexError]. *)
Theorem eta_dict_no_subscript_error `{Countable K}
    (ranking : list K) (pref : gmap (K * K) Qc) :
  (∃ s, eta_dict_sums ranking pref = Ok s)
  ∧ ((∃ v, eta_dict ranking pref = Ok v)
     ∨ eta_dict ranking pref = Raise ZeroDivisionError).
Proof.
  assert (∃ s, eta_dict_sums ranking pref = Ok s) as [[_eta ideal] Hs].
  { rewrite eta_dict_sums_terms. unfold sums_of, sums_over.
    destruct (collect_total (eta_dict_term pref) (pairs ranking)) as [cs ->].
    - intros xy _. apply eta_dict_term_Ok.
    - by eexists. }
  split; [by eexists|]. unfold eta_dict. rewrite Hs. simpl. unfold truediv.
  destruct (decide (ideal = 0)); [by right|left; by eexists].
Qed.

(** X2 -- for an [n] by [n] matrix and a ranking of at least two items,
    [eta] raises [IndexError] exactly when some item of the ranking is
    outside the subscripts [-n .. n-1] of the matrix; it never raises
    [KeyError]. *)
Theorem eta_index_error (n : nat) (ranking : list Z) (pref : list (list Qc)) :
  square n pref → (2 ≤ length ranking)%nat →
  (eta ranking pref = Raise IndexError ↔ ∃ x, x ∈ ranking ∧ ¬ in_bounds n x)
  ∧ eta ranking pref ≠ Raise KeyError.
Proof.
  intros Hsq Hlen. rewrite eta_measure. unfold measure. split; [split|].
  - intros [[? _] | ([x y] & Hxy & Hraise)]%measure_over_Raise_inv; [done|].
    apply elem_pairs in Hxy as (i & j & _ & Hx & Hy).
    apply list_elem_of_lookup_2 in Hx, Hy.
    destruct (decide (in_bounds n x)) as [Hbx|Hbx]; [|by exists x].
    exists y. split; [done|]. intros Hby.
    destruct (proj1 (getitem2_in_bounds n pref x y Hsq) (conj Hbx Hby)) as [p Hp].
    unfold eta_term in Hraise. simpl in Hraise. by rewrite Hp in Hraise.
  - intros (x & Hx & Hbx).
    assert (∀ a b, (a = x ∨ b = x) → eta_term pref (a, b) = Raise IndexError) as Hout.
    { intros a b Hab. unfold eta_term. simpl.
      destruct (getitem2 pref a b) as [p|err] eqn:Hp; simpl.
      - destruct (proj2 (getitem2_in_bounds n pref a b Hsq)) as [Ha Hb]; [by exists p|].
        destruct Hab as [-> | ->]; done.
      - by apply getitem2_exn in Hp as ->. }
    unfold measure_over, sums_over.
    destruct (elem_has_pair ranking x Hx Hlen) as [y [Hxy | Hyx]].
    + rewrite (collect_raise _ _ IndexError (x, y)); [done..| |].
      * apply Hout. by left.
      * intros [a b] _. unfold eta_term. simpl.
        destruct (getitem2 pref a b) as [p|err] eqn:Hp; simpl; [left; by eexists|].
        right. by apply getitem2_exn in Hp as ->.
    + rewrite (collect_raise _ _ IndexError (y, x)); [done..| |].
      * apply Hout. by right.
      * intros [a b] _. unfold eta_term. simpl.
        destruct (getitem2 pref a b) as [p|err] eqn:Hp; simpl; [left; by eexists|].
        right. by apply getitem2_exn in Hp as ->.
  - intros [[? _] | ([x y] & _ & Hraise)]%measure_over_Raise_inv; [done|].
    unfold eta_term in Hraise. simpl in Hraise.
    destruct (getitem2 pref x y) as [p|err] eqn:Hp; [done|].
    simpl in Hraise. injection Hraise as ->. by apply getitem2_exn in Hp.
Qed.

Lemma pref4_square : square 4 pref4.
Proof. split; [done|]. by repeat constructor. Qed.

Lemma eta_index_error_witness :
  eta [2; 1; 4; 0]%Z pref4 = Raise IndexError
  ∧ eta [2; 1; 3; 0]%Z pref4 ≠ Raise IndexError
  ∧ eta [2; 1; -4; 0]%Z pref4 ≠ Raise IndexError.
Proof.
  assert (2 ≤ 4)%nat as Hlen by lia.
  pose proof (eta_index_error 4 [2; 1; 4; 0]%Z pref4 pref4_square Hlen)
    as [Hbad _].
  pose proof (eta_index_error 4 [2; 1; 3; 0]%Z pref4 pref4_square Hlen)
    as [Hgood _].
  pose proof (eta_index_error 4 [2; 1; -4; 0]%Z pref4 pref4_square Hlen)
    as [Hneg _].
  split; [|split].
  - apply Hbad. exists 4%Z. split.
    + apply (bool_decide_unpack _). by vm_compute.
    + unfold in_bounds. lia.
  - intros Hraise. apply Hgood in Hraise as (x & Hx & Hbx).
    apply Hbx. unfold in_bounds. items Hx; lia.
  - intros Hraise. apply Hneg in Hraise as (x & Hx & Hbx).
    apply Hbx. unfold in_bounds. items Hx; lia.
Defined.

(** ** The sums the loops keep *)

Lemma Qc_eq_le (a b : Qc) : a = b → a ≤ b ∧ b ≤ a.
Proof. intros ->. split; apply Qcle_refl. Qed.

Lemma bounded_nonneg (c : sums) : bounded c → 0 ≤ c.2.
Proof. destruct c as [c1 c2]. unfold bounded. simpl. intros [H1 H2]. qc_lra. Qed.

Lemma collect_elem {A} (P : sums → Prop) (t : A → result sums) (l : list A) cs :
  collect t l = Ok cs → Forall P cs → ∀ a, a ∈ l → ∃ c, t a = Ok c ∧ P c.
Proof.
  revert cs. induction l as [|b l IH]; intros cs; simpl.
  - intros _ _ a Ha. by apply elem_of_nil in Ha.
  - destruct (t b) as [c|err] eqn:Htb; simpl; [|done].
    destruct (collect t l) as [cs'|err]; simpl; [|done].
    intros [= <-] [Hc Hcs]%Forall_cons a [-> | Ha]%elem_of_cons.
    + by exists c.
    + by apply (IH cs').
Qed.

Lemma total_ideal_zero (cs : list sums) :
  Forall bounded cs → (total cs).2 = 0 → Forall (λ c, c.2 = 0) cs.
Proof.
  induction 1 as [|[c1 c2] cs Hc Hcs IH]; simpl; [constructor|].
  intros Hzero. pose proof (bounded_nonneg _ Hc) as Hc2.
  pose proof (bounded_nonneg _ (total_bounded cs Hcs)) as Ht2. simpl in *.
  apply Qc_eq_le in Hzero as [Hle _].
  assert (c2 = 0) as -> by (apply Qcle_antisym; qc_lra).
  constructor; [done|]. apply IH. apply Qcle_antisym; qc_lra.
Qed.

Lemma total_zeros (cs : list sums) : Forall (λ c, c = (0, 0)) cs → total cs = (0, 0).
Proof.
  induction 1 as [|c cs -> _ IH]; simpl; [done|]. rewrite IH. simpl.
  by rewrite !Qcplus_0_r.
Qed.

Lemma label_zero_tie (p : Qc) : 2 * p - 1 = 0 → p = half.
Proof.
  intros [Hle Hge]%Qc_eq_le. apply Qcle_antisym; qc_lra.
Qed.

Lemma true_delta_cases (p : Qc) : true_delta p = 1 ∨ true_delta p = -1.
Proof.
  destruct (decide (half < p)) as [Hp|Hp].
  - left. by apply true_delta_gt.
  - right. by apply true_delta_le.
Qed.

Lemma mult_sign_zero (label s : Qc) : s = 1 ∨ s = -1 → label * s = 0 → label = 0.
Proof.
  intros [-> | ->] Hz.
  - by rewrite Qcmult_1_r in Hz.
  - replace label with (- (label * -1)) by ring. rewrite Hz. ring.
Qed.

Lemma tie_term (delta : Qc) : term_of (2 * half - 1) delta half = (0, 0).
Proof. unfold term_of. rewrite label_tie. f_equal; ring. Qed.

Lemma sums_over_Ok_inv {A} (t : A → result sums) (ps : list A) (s : sums) :
  sums_over t ps = Ok s → ∃ cs, collect t ps = Ok cs ∧ total cs = s.
Proof.
  unfold sums_over. destruct (collect t ps) as [cs|err]; simpl; [|done].
  intros [= <-]. by exists cs.
Qed.

(** X3 -- [eta] raises [ZeroDivisionError] exactly when every pair it
    compares has a preference probability of exactly 0.5 (in particular
    when it compares no pair): the terms of the ideal sum are never
    negative, so they cannot cancel. *)
Theorem eta_zero_division_iff (ranking : list Z) (pref : list (list Qc)) :
  eta ranking pref = Raise ZeroDivisionError
  ↔ ∀ i j x y, (i < j)%nat → ranking !! i = Some x → ranking !! j = Some y →
               getitem2 pref x y = Ok half.
Proof.
  rewrite eta_measure. unfold measure. split.
  - intros [[_ [_eta Hs]] | ([x y] & _ & Hraise)]%measure_over_Raise_inv.
    + apply sums_over_Ok_inv in Hs as (cs & Hcs & Htotal).
      assert (Forall bounded cs) as Hb.
      { apply (collect_Forall _ _ _ _ Hcs). intros xy c _. apply eta_term_bounded. }
      assert (Forall (λ c, c.2 = 0) cs) as Hz.
      { apply total_ideal_zero; [done|]. by rewrite Htotal. }
      intros i j x y Hij Hx Hy.
      destruct (collect_elem _ _ _ _ Hcs Hz (x, y)) as (c & Hc & Hc0).
      { by apply (pairs_elem ranking i j). }
      unfold eta_term in Hc. simpl in Hc.
      destruct (getitem2 pref x y) as [p|err]; [|done].
      simpl in Hc. injection Hc as <-. unfold term_of in Hc0. simpl in Hc0.
      f_equal. apply label_zero_tie.
      by apply (mult_sign_zero _ (true_delta p) (true_delta_cases p)).
    + unfold eta_term in Hraise. simpl in Hraise.
      destruct (getitem2 pref x y) as [p|err] eqn:Hp; [done|].
      simpl in Hraise. injection Hraise as ->. by apply getitem2_exn in Hp.
  - intros Hties. unfold measure_over, sums_over.
    destruct (collect_total (eta_term pref) (pairs ranking)) as [cs Hcs].
    { intros [x y] (i & j & Hij & Hx & Hy)%elem_pairs.
      unfold eta_term. simpl. rewrite (Hties i j x y Hij Hx Hy). by eexists. }
    rewrite Hcs. simpl. rewrite (total_zeros cs); [apply truediv_zero|].
    apply (collect_Forall _ _ _ _ Hcs).
    intros [x y] c (i & j & Hij & Hx & Hy)%elem_pairs.
    unfold eta_term. simpl. rewrite (Hties i j x y Hij Hx Hy), bind_Ok.
    intros [= <-]. apply tie_term.
Qed.

(** X4 -- [eta_dict] raises [ZeroDivisionError] exactly when every
    probability it reads (under the key of a compared pair, or under the
    mirrored key) is exactly 0.5, in particular when the dict covers no
    pair of the ranking. *)
Theorem eta_dict_zero_division_iff `{Countable K}
    (ranking : list K) (pref : gmap (K * K) Qc) :
  eta_dict ranking pref = Raise ZeroDivisionError
  ↔ ∀ i j x y p, (i < j)%nat → ranking !! i = Some x → ranking !! j = Some y →
                 stored pref (x, y) = Some p → p = half.
Proof.
  rewrite eta_dict_measure. unfold measure. split.
  - intros [[_ [_eta Hs]] | (xy & _ & Hraise)]%measure_over_Raise_inv.
    + apply sums_over_Ok_inv in Hs as (cs & Hcs & Htotal).
      assert (Forall bounded cs) as Hb.
      { apply (collect_Forall _ _ _ _ Hcs). intros xy c _. apply eta_dict_term_bounded. }
      assert (Forall (λ c, c.2 = 0) cs) as Hz.
      { apply total_ideal_zero; [done|]. by rewrite Htotal. }
      intros i j x y p Hij Hx Hy Hp.
      destruct (collect_elem _ _ _ _ Hcs Hz (x, y)) as (c & Hc & Hc0).
      { by apply (pairs_elem ranking i j). }
      unfold eta_dict_term in Hc. unfold stored in Hp. simpl in Hc, Hp.
      destruct (pref !! (x, y)) as [p'|].
      { injection Hp as ->. injection Hc as <-. unfold term_of in Hc0. simpl in Hc0.
        apply label_zero_tie.
        by apply (mult_sign_zero _ (true_delta p) (true_delta_cases p)). }
      rewrite Hp in Hc. injection Hc as <-. unfold term_of in Hc0. simpl in Hc0.
      apply label_zero_tie.
      by apply (mult_sign_zero _ (true_delta p) (true_delta_cases p)).
    + destruct (eta_dict_term_Ok pref xy) as [c Hc]. congruence.
  - intros Hties. unfold measure_over, sums_over.
    destruct (collect_total (eta_dict_term pref) (pairs ranking)) as [cs Hcs].
    { intros xy _. apply eta_dict_term_Ok. }
    rewrite Hcs. simpl. rewrite (total_zeros cs); [apply truediv_zero|].
    apply (collect_Forall _ _ _ _ Hcs).
    intros [x y] c (i & j & Hij & Hx & Hy)%elem_pairs.
    specialize (Hties i j x y). unfold stored in Hties.
    unfold eta_dict_term. simpl in *.
    destruct (pref !! (x, y)) as [p|].
    { rewrite (Hties p Hij Hx Hy eq_refl). intros [= <-]. apply tie_term. }
    destruct (pref !! (y, x)) as [p|]; [|by intros [= <-]].
    rewrite (Hties p Hij Hx Hy eq_refl). intros [= <-]. apply tie_term.
Qed.

Lemma sums_over_bounded {A} (t : A → result sums) (ps : list A) (s : sums) :
  (∀ a c, a ∈ ps → t a = Ok c → bounded c) →
  sums_over t ps = Ok s → 0 ≤ s.2 ∧ - s.2 ≤ s.1 ≤ s.2.
Proof.
  intros Hb (cs & Hcs & <-)%sums_over_Ok_inv.
  assert (bounded (total cs)) as Ht.
  { apply total_bounded. by apply (collect_Forall _ _ _ _ Hcs). }
  split; [by apply bounded_nonneg|done].
Qed.

(** X5 -- the sums the loops accumulate: in each of the four functions the
    ideal sum is never negative and [_eta] lies between [-ideal] and
    [ideal] (for the variance-weighted functions, when no variance is
    negative). *)
Theorem sums_invariant `{Countable K}
    (rz : list Z) (pref Ep Vp : list (list Qc))
    (rk : list K) (dpref dEp dVp : gmap (K * K) Qc) (_eta ideal : Qc) :
  (eta_sums rz pref = Ok (_eta, ideal) → 0 ≤ ideal ∧ - ideal ≤ _eta ≤ ideal)
  ∧ (valid_variance Vp → eta_p_sums rz Ep Vp = Ok (_eta, ideal) →
     0 ≤ ideal ∧ - ideal ≤ _eta ≤ ideal)
  ∧ (eta_dict_sums rk dpref = Ok (_eta, ideal) → 0 ≤ ideal ∧ - ideal ≤ _eta ≤ ideal)
  ∧ (map_Forall (λ _ v, 0 ≤ v) dVp → eta_p_dict_sums rk dEp dVp = Ok (_eta, ideal) →
     0 ≤ ideal ∧ - ideal ≤ _eta ≤ ideal).
Proof.
  split; [|split; [|split]].
  - rewrite eta_sums_terms. intros Hs.
    apply (sums_over_bounded (eta_term pref) (pairs rz) (_eta, ideal)); [|done].
    intros xy c _. apply eta_term_bounded.
  - intros Hvar. rewrite eta_p_sums_terms. intros Hs.
    apply (sums_over_bounded (eta_p_term Ep Vp) (pairs rz) (_eta, ideal)); [|done].
    intros xy c _. by apply eta_p_term_bounded.
  - rewrite eta_dict_sums_terms. intros Hs.
    apply (sums_over_bounded (eta_dict_term dpref) (pairs rk) (_eta, ideal)); [|done].
    intros xy c _. apply eta_dict_term_bounded.
  - intros Hvar. rewrite eta_p_dict_sums_terms. intros Hs.
    apply (sums_over_bounded (eta_p_dict_term dEp dVp) (pairs rk) (_eta, ideal)); [|done].
    intros xy c _. by apply eta_p_dict_term_bounded.
Qed.

Lemma sums_invariant_witness :
  (0 ≤ q 12 5 ∧ - q 12 5 ≤ q 8 5 ≤ q 12 5)
  ∧ (0 ≤ q 179 150 ∧ - q 179 150 ≤ q 71 150 ≤ q 179 150).
Proof.
  pose proof (sums_invariant [2; 1; 3; 0]%Z pref4 pref4 var4
                ["c"; "b"; "d"; "a"]%string dict4 dict4 dict4 (q 8 5) (q 12 5))
    as (Hplain & _ & _ & _).
  pose proof (sums_invariant [2; 1; 3; 0]%Z pref4 pref4 var4
                ["c"; "b"; "d"; "a"]%string dict4 dict4 dict4 (q 71 150) (q 179 150))
    as (_ & Hweighted & _ & _).
  split.
  - apply Hplain. run.
  - apply Hweighted; [|run]. repeat constructor; by vm_compute.
Defined.

(** ** When the measure is 1 or -1 *)

Lemma total_ideal_pos (cs : list sums) (c : sums) :
  Forall bounded cs → c ∈ cs → 0 < c.2 → 0 < (total cs).2.
Proof.
  induction 1 as [|d cs Hd Hcs IH]; [by intros ?%elem_of_nil|].
  pose proof (bounded_nonneg _ Hd) as Hd2.
  pose proof (bounded_nonneg _ (total_bounded cs Hcs)) as Ht2.
  simpl. intros [-> | Hc]%elem_of_cons Hpos.
  - by apply Qcplus_pos_nonneg.
  - apply Qcplus_nonneg_pos; [done|]. by apply IH.
Qed.

Lemma eta_term_Ok_inv (pref : list (list Qc)) (x y : Z) (c : sums) :
  eta_term pref (x, y) = Ok c →
  ∃ p, getitem2 pref x y = Ok p ∧ c = term_of (2 * p - 1) 1 p.
Proof.
  unfold eta_term. simpl. destruct (getitem2 pref x y) as [p|err]; simpl; [|done].
  intros [= <-]. by exists p.
Qed.

Lemma term_ideal_pos (p : Qc) : p ≠ half → 0 < (term_of (2 * p - 1) 1 p).2.
Proof.
  intros Hne. apply Qc_nonneg_pos.
  - apply bounded_nonneg, plain_label_bounded. by left.
  - unfold term_of. simpl. intros Hz. apply Hne, label_zero_tie.
    by apply (mult_sign_zero _ (true_delta p) (true_delta_cases p)).
Qed.

Lemma collect_elem_in {A} (t : A → result sums) (l : list A) cs (a : A) :
  collect t l = Ok cs → a ∈ l → ∃ c, t a = Ok c ∧ c ∈ cs.
Proof.
  revert cs. induction l as [|b l IH]; intros cs; simpl.
  - intros _ Ha. by apply elem_of_nil in Ha.
  - destruct (t b) as [d|err] eqn:Htb; simpl; [|done].
    destruct (collect t l) as [cs'|err]; simpl; [|done].
    intros [= <-] [-> | Ha]%elem_of_cons.
    + exists d. split; [done|left].
    + destruct (IH cs' eq_refl Ha) as (c & Hc & Hin). exists c. split; [done|by right].
Qed.

Lemma eta_collect_bounded (pref : list (list Qc)) (ps : list (Z * Z)) cs :
  collect (eta_term pref) ps = Ok cs → Forall bounded cs.
Proof.
  intros Hcs. apply (collect_Forall _ _ _ _ Hcs). intros xy c _. apply eta_term_bounded.
Qed.

(** A ranking on which every pair adds [k] times as much to [_eta] as to
    [ideal], with a pair that is not a tie, has measure [k]. *)
Lemma eta_proportional (k : Qc) (ranking : list Z) (pref : list (list Qc)) :
  (∀ x y, (x, y) ∈ pairs ranking → ∃ p, getitem2 pref x y = Ok p
     ∧ (term_of (2 * p - 1) 1 p).1 = k * (term_of (2 * p - 1) 1 p).2) →
  (∃ x y p, (x, y) ∈ pairs ranking ∧ getitem2 pref x y = Ok p ∧ p ≠ half) →
  measure (eta_term pref) ranking = Ok k.
Proof.
  intros Hall (x0 & y0 & p0 & Hin0 & Hp0 & Hne0).
  apply (measure_proportional k (eta_term pref) ranking).
  - intros [x y] c Hxy (p & Hp & ->)%eta_term_Ok_inv.
    destruct (Hall x y Hxy) as (p' & Hp' & Hk). congruence.
  - destruct (collect_total (eta_term pref) (pairs ranking)) as [cs Hcs].
    { intros [x y] Hxy. destruct (Hall x y Hxy) as (p & Hp & _).
      unfold eta_term. simpl. rewrite Hp. by eexists. }
    unfold sums_of, sums_over. rewrite Hcs. simpl.
    exists (total cs).1, (total cs).2. split; [by destruct (total cs)|].
    apply not_eq_sym, Qclt_not_eq.
    destruct (collect_elem_in _ _ _ (x0, y0) Hcs Hin0) as (c & Hc & Hin).
    apply eta_term_Ok_inv in Hc as (p & Hp & ->).
    assert (p = p0) as -> by congruence.
    apply (total_ideal_pos cs _ (eta_collect_bounded _ _ _ Hcs) Hin).
    by apply term_ideal_pos.
Qed.

(** X6 -- [eta] returns exactly 1 when no compared pair is ranked
    against its preference ([p >= 0.5] for every pair) and some pair is
    not a tie; it returns exactly -1 when no compared pair is ranked
    along its preference ([p <= 0.5]) and some pair is not a tie. *)
Theorem eta_extreme_if (ranking : list Z) (pref : list (list Qc)) :
  ((∀ x y, (x, y) ∈ pairs ranking → ∃ p, getitem2 pref x y = Ok p ∧ half ≤ p) →
   (∃ x y p, (x, y) ∈ pairs ranking ∧ getitem2 pref x y = Ok p ∧ half < p) →
   eta ranking pref = Ok 1)
  ∧ ((∀ x y, (x, y) ∈ pairs ranking → ∃ p, getitem2 pref x y = Ok p ∧ p ≤ half) →
     (∃ x y p, (x, y) ∈ pairs ranking ∧ getitem2 pref x y = Ok p ∧ p < half) →
     eta ranking pref = Ok (-1)).
Proof.
  rewrite eta_measure. split.
  - intros Hall (x & y & p & Hxy & Hp & Hlt). apply eta_proportional.
    + intros a b Hab. destruct (Hall a b Hab) as (p' & Hp' & Hle).
      exists p'. split; [done|].
      destruct (Qcle_lt_or_eq _ _ Hle) as [Hlt'| <-].
      * by apply term_of_agree.
      * rewrite tie_term. simpl. ring.
    + exists x, y, p. split; [done|]. split; [done|].
      by apply not_eq_sym, Qclt_not_eq.
  - intros Hall (x & y & p & Hxy & Hp & Hlt). apply eta_proportional.
    + intros a b Hab. destruct (Hall a b Hab) as (p' & Hp' & Hle).
      exists p'. split; [done|]. by apply term_of_against.
    + exists x, y, p. split; [done|]. split; [done|]. by apply Qclt_not_eq.
Qed.

(** ** Certain preferences: Kendall's tau *)

Lemma Qc_of_nat_S (n : nat) : Qc_of_nat (S n) = 1 + Qc_of_nat n.
Proof.
  unfold Qc_of_nat. rewrite Nat2Z.inj_succ, <- Z.add_1_l, Z2Qc_inj_add.
  by rewrite Z2Qc_inj_1.
Qed.

Lemma Qc_of_nat_add (n m : nat) : Qc_of_nat (n + m) = Qc_of_nat n + Qc_of_nat m.
Proof. unfold Qc_of_nat. by rewrite Nat2Z.inj_add, Z2Qc_inj_add. Qed.

Lemma Qc_one_neq_zero : (1 : Qc) ≠ 0.
Proof. done. Qed.

Lemma term_certain_for : term_of (2 * 1 - 1) 1 1 = (1, 1).
Proof.
  unfold term_of. rewrite true_delta_gt by done. f_equal; ring.
Qed.

Lemma term_certain_against : term_of (2 * 0 - 1) 1 0 = (-1, 1).
Proof.
  unfold term_of. rewrite true_delta_le by done. f_equal; ring.
Qed.

Lemma length_pairs {A} (l : list A) :
  (2 * length (pairs l) = length l * (length l - 1))%nat.
Proof.
  induction l as [|x l IH]; simpl; [done|].
  rewrite length_app, length_map. nia.
Qed.

Lemma certain_sums (pref : list (list Qc)) (ps : list (Z * Z)) :
  (∀ xy, xy ∈ ps → getitem2 pref xy.1 xy.2 = Ok 1 ∨ getitem2 pref xy.1 xy.2 = Ok 0) →
  let C := length (filter (λ xy, getitem2 pref xy.1 xy.2 = Ok 1) ps) in
  let D := length (filter (λ xy, getitem2 pref xy.1 xy.2 = Ok 0) ps) in
  sums_over (eta_term pref) ps
  = Ok (Qc_of_nat C - Qc_of_nat D, Qc_of_nat C + Qc_of_nat D)
  ∧ (C + D)%nat = length ps.
Proof.
  unfold sums_over. induction ps as [|xy ps IH]; intros Hall; simpl.
  - split; [|done]. f_equal; f_equal; by apply Qc_is_canon.
  - destruct IH as [IH Hlen]. { intros a Ha. apply Hall. by right. }
    simpl in IH. destruct (collect (eta_term pref) ps) as [cs|err]; [|done].
    simpl in IH. injection IH as IH. unfold eta_term at 1.
    destruct (Hall xy) as [Hp | Hp]; [left| |].
    + rewrite Hp, bind_Ok, term_certain_for. simpl.
      rewrite filter_cons_True by done.
      rewrite filter_cons_False by (rewrite Hp; by intros [= ?]).
      simpl. rewrite IH. simpl. rewrite Qc_of_nat_S. split; [|lia].
      f_equal. f_equal; ring.
    + rewrite Hp, bind_Ok, term_certain_against. simpl.
      rewrite filter_cons_False by (rewrite Hp; by intros [= ?]).
      rewrite filter_cons_True by done.
      simpl. rewrite IH. simpl. rewrite Qc_of_nat_S. split; [|lia].
      f_equal. f_equal; ring.
Qed.

(** X7 -- when every compared pair has a certain preference
    ([pref[x][y]] is 1 or 0), [eta] is Kendall's tau: with [C] pairs
    ranked along the preference and [D] against it, [C + D] is the number
    [N (N - 1) / 2] of pairs and the result is [(C - D) / (C + D)]
    ([ZeroDivisionError] when there is no pair). *)
Theorem eta_is_kendall_tau (ranking : list Z) (pref : list (list Qc)) :
  (∀ i j x y, (i < j)%nat → ranking !! i = Some x → ranking !! j = Some y →
              getitem2 pref x y = Ok 1 ∨ getitem2 pref x y = Ok 0) →
  let C := concordant ranking pref in
  let D := discordant ranking pref in
  eta ranking pref = truediv (Qc_of_nat C - Qc_of_nat D) (Qc_of_nat (C + D))
  ∧ (2 * (C + D) = length ranking * (length ranking - 1))%nat.
Proof.
  intros Hall C D.
  destruct (certain_sums pref (pairs ranking)) as [Hsums Hlen].
  { intros [x y] (i & j & Hij & Hx & Hy)%elem_pairs. by apply (Hall i j). }
  fold (concordant ranking pref) in Hsums, Hlen.
  fold (discordant ranking pref) in Hsums, Hlen. fold C D in Hsums, Hlen.
  split.
  - rewrite eta_measure. unfold measure, measure_over. rewrite Hsums. simpl.
    by rewrite Qc_of_nat_add.
  - rewrite Hlen. apply length_pairs.
Qed.

Lemma eta_is_kendall_tau_witness :
  eta [1; 0; 2]%Z pref3 = truediv (Qc_of_nat 2 - Qc_of_nat 1) (Qc_of_nat (2 + 1)).
Proof.
  apply (eta_is_kendall_tau [1; 0; 2]%Z pref3).
  intros i j x y Hij Hx Hy. positions Hij Hx Hy; by (left + right).
Defined.

(** ** What the functions read *)

Lemma pairs_asym {A} (r : list A) (x y : A) :
  NoDup r → (x, y) ∈ pairs r → (y, x) ∉ pairs r.
Proof.
  intros Hnd (i & j & Hij & Hx & Hy)%elem_pairs (i' & j' & Hij' & Hy' & Hx')%elem_pairs.
  pose proof (NoDup_lookup r i j' x Hnd Hx Hx').
  pose proof (NoDup_lookup r j i' y Hnd Hy Hy'). lia.
Qed.

(** X10 -- the dense functions read the matrices only at
    [[ranking[i]][ranking[j]]] with [i < j]: two preference matrices (and
    two variance matrices) that agree there give the same result, whatever
    their diagonals and their mirrored entries hold. *)
Theorem dense_reads_compared_entries
    (ranking : list Z) (pref pref' Ep Ep' Vp Vp' : list (list Qc)) :
  ((∀ x y, (x, y) ∈ pairs ranking → getitem2 pref x y = getitem2 pref' x y) →
   eta ranking pref = eta ranking pref')
  ∧ ((∀ x y, (x, y) ∈ pairs ranking →
        getitem2 Ep x y = getitem2 Ep' x y ∧ getitem2 Vp x y = getitem2 Vp' x y) →
     eta_p ranking Ep Vp = eta_p ranking Ep' Vp').
Proof.
  split.
  - intros Hsame. rewrite !eta_measure. apply measure_ext.
    intros [x y] Hxy. unfold eta_term. simpl. by rewrite (Hsame x y Hxy).
  - intros Hsame. rewrite !eta_p_measure. apply measure_ext.
    intros [x y] Hxy. unfold eta_p_term. simpl.
    destruct (Hsame x y Hxy) as [-> ->]. done.
Qed.

(** X11 -- the sparse functions read the dicts only at keys made of two
    items of the ranking: two preference dicts (and two variance dicts)
    that agree on those keys give the same result, so entries about other
    items can be added or removed freely. *)
Theorem sparse_reads_ranking_keys `{Countable K}
    (ranking : list K) (pref pref' Ep Ep' Vp Vp' : gmap (K * K) Qc) :
  ((∀ x y, x ∈ ranking → y ∈ ranking → pref !! (x, y) = pref' !! (x, y)) →
   eta_dict ranking pref = eta_dict ranking pref')
  ∧ ((∀ x y, x ∈ ranking → y ∈ ranking →
        Ep !! (x, y) = Ep' !! (x, y) ∧ Vp !! (x, y) = Vp' !! (x, y)) →
     eta_p_dict ranking Ep Vp = eta_p_dict ranking Ep' Vp').
Proof.
  split.
  - intros Hsame. rewrite !eta_dict_measure. apply measure_ext.
    intros [x y] (i & j & _ & Hx & Hy)%elem_pairs.
    apply list_elem_of_lookup_2 in Hx, Hy.
    unfold eta_dict_term. simpl.
    by rewrite (Hsame x y Hx Hy), (Hsame y x Hy Hx).
  - intros Hsame. rewrite !eta_p_dict_measure. apply measure_ext.
    intros [x y] (i & j & _ & Hx & Hy)%elem_pairs.
    apply list_elem_of_lookup_2 in Hx, Hy.
    unfold eta_p_dict_term, dict_getitem. simpl.
    destruct (Hsame x y Hx Hy) as [-> ->].
    destruct (Hsame y x Hy Hx) as [-> ->]. done.
Qed.

(** X12 -- when the dict holds a pair in both directions, the entry in
    the direction of the ranking is the one used: for a ranking of
    distinct items that places [x] before [y] and a dict with the key
    [(x, y)], the entry under [(y, x)] can be set to anything, or removed,
    without changing the result of [eta_dict]. *)
Theorem ranking_direction_wins `{Countable K}
    (ranking : list K) (pref : gmap (K * K) Qc) (x y : K) (p' : Qc) :
  NoDup ranking → (x, y) ∈ pairs ranking → is_Some (pref !! (x, y)) →
  eta_dict ranking (<[(y, x) := p']> pref) = eta_dict ranking pref
  ∧ eta_dict ranking (delete (y, x) pref) = eta_dict ranking pref.
Proof.
  intros Hnd Hxy [p Hp].
  assert (x ≠ y) as Hne by (by apply (pairs_NoDup ranking x y Hnd) in Hxy as (_ & _ & ?)).
  split.
  - rewrite !eta_dict_measure. apply measure_ext. intros [a b] Hab.
    unfold eta_dict_term. simpl. rewrite !lookup_insert.
    destruct (decide ((y, x) = (a, b))) as [[= <- <-]|_].
    { by apply (pairs_asym ranking x y Hnd) in Hxy. }
    destruct (decide ((y, x) = (b, a))) as [[= <- <-]|_]; [|done].
    by rewrite Hp.
  - rewrite !eta_dict_measure. apply measure_ext. intros [a b] Hab.
    unfold eta_dict_term. simpl. rewrite !lookup_delete.
    destruct (decide ((y, x) = (a, b))) as [[= <- <-]|_].
    { by apply (pairs_asym ranking x y Hnd) in Hxy. }
    destruct (decide ((y, x) = (b, a))) as [[= <- <-]|_]; [|done].
    by rewrite Hp.
Qed.

(** X13 -- a missing pair and a tie are the same to the sparse
    functions: storing the probability 0.5 for a pair the dict has in
    neither direction does not change the result of [eta_dict], nor that
    of [eta_p_dict] when a variance other than -1 is stored with it. *)
Theorem tie_is_like_missing `{Countable K}
    (ranking : list K) (pref Ep Vp : gmap (K * K) Qc) (x y : K) (v : Qc) :
  (pref !! (x, y) = None → pref !! (y, x) = None →
   eta_dict ranking (<[(x, y) := half]> pref) = eta_dict ranking pref)
  ∧ (Ep !! (x, y) = None → Ep !! (y, x) = None → 1 + v ≠ 0 →
     eta_p_dict ranking (<[(x, y) := half]> Ep) (<[(x, y) := v]> Vp)
     = eta_p_dict ranking Ep Vp).
Proof.
  assert (∀ delta, term_of (2 * half - 1) delta half = (0, 0)) as Htie
    by apply tie_term.
  assert (∀ delta, 1 + v ≠ 0 →
            (label ← truediv (2 * half - 1) (1 + v); Ok (term_of label delta half))
            = Ok (0, 0)) as Htiev.
  { intros delta Hv. rewrite truediv_nonzero, bind_Ok by done.
    rewrite label_tie. unfold term_of. f_equal. f_equal; by field. }
  split.
  - intros H1 H2. rewrite !eta_dict_measure. apply measure_ext. intros [a b] _.
    unfold eta_dict_term. simpl. rewrite !lookup_insert.
    repeat case_decide; simplify_eq; rewrite ?H1, ?H2, ?Htie; done.
  - intros H1 H2 Hv. rewrite !eta_p_dict_measure. apply measure_ext. intros [a b] _.
    unfold eta_p_dict_term, dict_getitem. simpl. rewrite !lookup_insert.
    repeat case_decide; simplify_eq; rewrite ?H1, ?H2, ?bind_Ok, ?Htiev; done.
Qed.

Lemma dense_reads_compared_entries_witness :
  eta [2; 1; 3; 0]%Z pref4 = eta [2; 1; 3; 0]%Z pref4_upper.
Proof.
  apply (dense_reads_compared_entries [2; 1; 3; 0]%Z pref4 pref4_upper
           pref4 pref4 var4 var4).
  intros x y (i & j & Hij & Hx & Hy)%elem_pairs.
  positions Hij Hx Hy; run.
Defined.

Lemma sparse_reads_ranking_keys_witness :
  eta_dict ["a"; "b"]%string (<[("a", "z")%string := q 1 10]> skip_dict)
  = eta_dict ["a"; "b"]%string skip_dict.
Proof.
  apply (sparse_reads_ranking_keys ["a"; "b"]%string _ skip_dict
           skip_dict skip_dict skip_dict skip_dict).
  intros x y Hx Hy. apply lookup_insert_ne. intros [= <- <-].
  repeat (apply elem_of_cons in Hy as [Heq | Hy]; [discriminate Heq|]).
  by apply elem_of_nil in Hy.
Defined.

Lemma ranking_direction_wins_witness :
  eta_dict ["a"; "b"]%string (<[("b", "a")%string := q 9 10]> skip_dict)
  = eta_dict ["a"; "b"]%string skip_dict
  ∧ eta_dict ["a"; "b"]%string (delete ("b", "a")%string skip_dict)
    = eta_dict ["a"; "b"]%string skip_dict.
Proof.
  apply (ranking_direction_wins ["a"; "b"]%string skip_dict
           "a"%string "b"%string (q 9 10)).
  - apply (bool_decide_unpack (NoDup ["a"; "b"]%string)). by vm_compute.
  - apply (pairs_elem _ 0 1); [lia|done..].
  - by eexists.
Defined.

Lemma tie_is_like_missing_witness :
  eta_dict ["a"; "b"; "c"]%string (<[("c", "a")%string := half]> skip_dict)
  = eta_dict ["a"; "b"; "c"]%string skip_dict
  ∧ eta_p_dict ["a"; "b"; "c"]%string
      (<[("c", "a")%string := half]> skip_dict) (<[("c", "a")%string := q 3 2]> skip_dict)
    = eta_p_dict ["a"; "b"; "c"]%string skip_dict skip_dict.
Proof.
  destruct (tie_is_like_missing ["a"; "b"; "c"]%string skip_dict skip_dict skip_dict
              "c"%string "a"%string (q 3 2)) as [Hplain Hweighted].
  split; [by apply Hplain | by apply Hweighted].
Defined.

(** ** Exceptions of the variance-weighted functions *)

(** X14 -- a variance of exactly -1 makes [eta_p] fail: for [n] by [n]
    matrices and a ranking whose items are within their subscripts, the
    call raises [ZeroDivisionError] as soon as one compared pair has the
    variance -1, whatever the other pairs hold. *)
Theorem variance_minus_one_raises
    (n : nat) (ranking : list Z) (Ep Vp : list (list Qc)) (x y : Z) :
  square n Ep → square n Vp → (∀ z, z ∈ ranking → in_bounds n z) →
  (x, y) ∈ pairs ranking → getitem2 Vp x y = Ok (-1) →
  eta_p ranking Ep Vp = Raise ZeroDivisionError.
Proof.
  intros HEp HVp Hin Hxy Hv.
  assert (∀ a b, (a, b) ∈ pairs ranking →
            ∃ ep vp, getitem2 Ep a b = Ok ep ∧ getitem2 Vp a b = Ok vp) as Hok.
  { intros a b (i & j & _ & Ha & Hb)%elem_pairs.
    apply list_elem_of_lookup_2, Hin in Ha, Hb.
    destruct (proj1 (getitem2_in_bounds n Ep a b HEp) (conj Ha Hb)) as [ep Hep].
    destruct (proj1 (getitem2_in_bounds n Vp a b HVp) (conj Ha Hb)) as [vp Hvp].
    by exists ep, vp. }
  rewrite eta_p_measure. unfold measure, measure_over, sums_over.
  rewrite (collect_raise _ _ ZeroDivisionError (x, y)); [done..| |].
  - unfold eta_p_term. simpl. destruct (Hok x y Hxy) as (ep & vp & -> & _).
    rewrite Hv, !bind_Ok.
    replace (1 + -1) with (0 : Qc) by ring. by rewrite truediv_zero.
  - intros [a b] Hab. unfold eta_p_term. simpl.
    destruct (Hok a b Hab) as (ep & vp & -> & ->). rewrite !bind_Ok.
    destruct (truediv _ _) as [label|err] eqn:Hdiv; simpl; [left; by eexists|].
    right. by apply truediv_exn in Hdiv as [-> _].
Qed.

Lemma variance_minus_one_raises_witness :
  eta_p [2; 1; 3; 0]%Z pref4 var_minus_one = Raise ZeroDivisionError.
Proof.
  apply (variance_minus_one_raises 4 [2; 1; 3; 0]%Z pref4 var_minus_one 1%Z 3%Z).
  - apply pref4_square.
  - split; [done|]. by repeat constructor.
  - intros z Hz. unfold in_bounds. items Hz; lia.
  - apply (pairs_elem _ 1 2); [lia|done..].
  - run.
Defined.

(** X15 -- [eta_p_dict] raises [KeyError] only when some compared pair is
    in [Ep] under a key (direct, or mirrored when the direct one is
    absent) that [Vp] lacks; when [Vp] has every key of [Ep] it never
    raises [KeyError], and it never raises [IndexError]. *)
Theorem key_error_only_if `{Countable K}
    (ranking : list K) (Ep Vp : gmap (K * K) Qc) :
  (eta_p_dict ranking Ep Vp = Raise KeyError →
   ∃ x y, (x, y) ∈ pairs ranking ∧
     ((is_Some (Ep !! (x, y)) ∧ Vp !! (x, y) = None)
      ∨ (Ep !! (x, y) = None ∧ is_Some (Ep !! (y, x)) ∧ Vp !! (y, x) = None)))
  ∧ (dom Ep ⊆ dom Vp → eta_p_dict ranking Ep Vp ≠ Raise KeyError)
  ∧ eta_p_dict ranking Ep Vp ≠ Raise IndexError.
Proof.
  rewrite eta_p_dict_measure. unfold measure.
  assert (measure_over (eta_p_dict_term Ep Vp) (pairs ranking) = Raise KeyError →
    ∃ x y, (x, y) ∈ pairs ranking ∧
      ((is_Some (Ep !! (x, y)) ∧ Vp !! (x, y) = None)
       ∨ (Ep !! (x, y) = None ∧ is_Some (Ep !! (y, x)) ∧ Vp !! (y, x) = None)))
    as Honly.
  { intros [[? _] | ([x y] & Hxy & Hraise)]%measure_over_Raise_inv; [done|].
    apply eta_p_dict_term_exn in Hraise as [[_ Hkey] | ?]; [|done].
    by exists x, y. }
  split; [done|]. split.
  - intros Hdom (x & y & _ & Hkey)%Honly.
    assert (∀ k, is_Some (Ep !! k) → Vp !! k = None → False) as Hno.
    { intros k HE HV. apply elem_of_dom, Hdom, elem_of_dom in HE as [v Hv]. congruence. }
    destruct Hkey as [[HE HV] | (_ & HE & HV)]; by eapply Hno.
  - intros [[? _] | (xy & _ & Hraise)]%measure_over_Raise_inv; [done|].
    by apply eta_p_dict_term_exn in Hraise as [[? _] | ?].
Qed.

Lemma key_error_only_if_witness :
  eta_p_dict ["c"; "b"; "d"; "a"]%string dict4 ((λ _, 0) <$> dict4) ≠ Raise KeyError.
Proof.
  destruct (key_error_only_if ["c"; "b"; "d"; "a"]%string dict4 ((λ _, 0) <$> dict4))
    as (_ & Hdom & _).
  apply Hdom. by rewrite dom_fmap_L.
Defined.

(** ** The characterisations, on small inputs *)

Lemma eta_zero_division_iff_witness :
  eta [0; 1]%Z tie2 = Raise ZeroDivisionError
  ∧ eta [2; 1; 3; 0]%Z pref4 ≠ Raise ZeroDivisionError.
Proof.
  split.
  - apply eta_zero_division_iff. intros i j x y Hij Hx Hy.
    positions Hij Hx Hy; reflexivity.
  - intros Hraise.
    pose proof (proj1 (eta_zero_division_iff [2; 1; 3; 0]%Z pref4) Hraise
                  0%nat 1%nat 2%Z 1%Z) as Htie.
    assert (getitem2 pref4 2 1 = Ok (q 9 10)) as Hp by run.
    rewrite Hp in Htie. by specialize (Htie ltac:(lia) eq_refl eq_refl).
Defined.

Lemma eta_dict_zero_division_iff_witness :
  eta_dict ["a"; "c"; "b"]%string tie_dict = Raise ZeroDivisionError.
Proof.
  apply eta_dict_zero_division_iff. intros i j x y p Hij Hx Hy.
  positions Hij Hx Hy; unfold stored, tie_dict; simpl;
    rewrite ?lookup_singleton_eq, ?lookup_singleton_ne by congruence;
    congruence.
Defined.


Lemma eta_extreme_if_witness :
  eta [0; 1; 2]%Z pref3_tie = Ok (-1) ∧ eta [1; 2; 0]%Z pref3_tie = Ok 1.
Proof.
  split.
  - apply eta_extreme_if.
    + intros x y (i & j & Hij & Hx & Hy)%elem_pairs.
      positions Hij Hx Hy; (eexists; split; [reflexivity|done]).
    + exists 0%Z, 1%Z, 0. split; [|done].
      apply (pairs_elem _ 0 1); [lia|done..].
  - apply eta_extreme_if.
    + intros x y (i & j & Hij & Hx & Hy)%elem_pairs.
      positions Hij Hx Hy; (eexists; split; [reflexivity|done]).
    + exists 1%Z, 0%Z, 1. split; [|done].
      apply (pairs_elem _ 0 2); [lia|done..].
Defined.


(** ** The doctests, on binary64 numbers *)

(** X16 -- evaluated on binary64 numbers, every doctest of eta.py gives
    the documented output: 1.0, -1.0 and 0.6666666666666667, for the four
    functions and the three ways of storing the four-item example. *)
Theorem binary64_doctests :
  (Binary64.eta [0; 1; 2]%Z Binary64.pref3 = Ok 1%float
   ∧ Binary64.eta [2; 1; 0]%Z Binary64.pref3 = Ok (-1)%float
   ∧ Binary64.eta [2; 1; 3; 0]%Z Binary64.pref4 = Ok 0.6666666666666667%float)
  ∧ (Binary64.eta_p [0; 1; 2]%Z Binary64.pref3 Binary64.zero3 = Ok 1%float
     ∧ Binary64.eta_p [2; 1; 0]%Z Binary64.pref3 Binary64.zero3 = Ok (-1)%float
     ∧ Binary64.eta_p [2; 1; 3; 0]%Z Binary64.pref4 Binary64.zero4
       = Ok 0.6666666666666667%float)
  ∧ (Binary64.eta_dict ["a"; "b"; "c"]%string Binary64.dict3 = Ok 1%float
     ∧ Binary64.eta_dict ["c"; "b"; "a"]%string Binary64.dict3 = Ok (-1)%float
     ∧ Binary64.eta_dict ["c"; "b"; "d"; "a"]%string Binary64.dict4
       = Ok 0.6666666666666667%float
     ∧ Binary64.eta_dict ["c"; "b"; "d"; "a"]%string Binary64.dict4_ba
       = Ok 0.6666666666666667%float
     ∧ Binary64.eta_dict ["c"; "b"; "d"; "a"]%string Binary64.dict4_mixed
       = Ok 0.6666666666666667%float)
  ∧ (Binary64.eta_p_dict ["a"; "b"; "c"]%string
       Binary64.dict3 (Binary64.zero_variance Binary64.dict3) = Ok 1%float
     ∧ Binary64.eta_p_dict ["c"; "b"; "a"]%string
         Binary64.dict3 (Binary64.zero_variance Binary64.dict3) = Ok (-1)%float
     ∧ Binary64.eta_p_dict ["c"; "b"; "d"; "a"]%string
         Binary64.dict4 (Binary64.zero_variance Binary64.dict4)
       = Ok 0.6666666666666667%float
     ∧ Binary64.eta_p_dict ["c"; "b"; "d"; "a"]%string
         Binary64.dict4_ba (Binary64.zero_variance Binary64.dict4_ba)
       = Ok 0.6666666666666667%float
     ∧ Binary64.eta_p_dict ["c"; "b"; "d"; "a"]%string
         Binary64.dict4_mixed (Binary64.zero_variance Binary64.dict4_mixed)
       = Ok 0.6666666666666667%float).
Proof. repeat split; by vm_compute. Qed.
